(** * nodestream: interpretation dispatch, filters, progress reporting and
      pipeline definitions

    A shallow embedding of
    - [nodestream/pipeline/filters.py],
    - [nodestream/interpreting/swtich_interpretation.py],
    - [nodestream/project/pipeline_progress_reporter.py],
    - [nodestream/project/pipeline_definition.py],
    with the properties their specification states about them. *)

From Stdlib Require Import ZArith Ascii String.
From stdpp Require Import base option list gmap strings.

Local Open Scope Z_scope.
Set Warnings "-register-all,-clear-no-such-hyp".
Set Default Proof Using "Type".

(** ** Python values, exceptions and effects *)

(** The scalars a value provider resolves to, and the keys and leaves of a
    parsed YAML document.  (Floating point numbers are left out.) *)
Inductive Value : Type :=
| VNone
| VBool (b : bool)
| VInt (z : Z)
| VStr (s : string).

#[global] Instance Value_eq_dec : EqDecision Value.
Proof. solve_decision. Defined.

Definition int_of_bool (b : bool) : Z := if b then 1 else 0.

(** Python's [==] on scalars: [bool] is a subclass of [int], so [True == 1]
    and [False == 0]; values of unrelated types are unequal. *)
Definition py_eq (a b : Value) : bool :=
  match a, b with
  | VNone, VNone => true
  | VBool x, VBool y => bool_decide (x = y)
  | VBool x, VInt y => bool_decide (int_of_bool x = y)
  | VInt x, VBool y => bool_decide (x = int_of_bool y)
  | VInt x, VInt y => bool_decide (x = y)
  | VStr x, VStr y => bool_decide (x = y)
  | _, _ => false
  end.

(** The exceptions the modelled code raises or lets through. *)
Inductive Exn : Type :=
| UnhandledBranchError (value : Value)
| KeyError (key : Value)
| TypeError (message : string)
| ZeroDivisionError
| NotImplementedError
| OtherError (message : string).

Inductive outcome (A : Type) : Type :=
| Returns (a : A)
| Raises (e : Exn).
Arguments Returns {A} a.
Arguments Raises {A} e.

(** A computation is the list of calls it made on its collaborators,
    in order, and then a value or the exception that ended it. *)
Definition M (E A : Type) : Type := list E * outcome A.

Definition ret {E A} (a : A) : M E A := ([], Returns a).
Definition raise {E A} (e : Exn) : M E A := ([], Raises e).
Definition tell {E} (ev : E) : M E unit := ([ev], Returns tt).
Definition lift {E A} (o : outcome A) : M E A := ([], o).

Definition bind {E A B} (m : M E A) (k : A -> M E B) : M E B :=
  match m with
  | (t, Returns a) => let '(t', r) := k a in (t ++ t', r)
  | (t, Raises e) => (t, Raises e)
  end.

Notation "'let*' x ':=' m 'in' k" := (bind m (fun x => k))
  (at level 10, x name, m at level 100, k at level 200, only parsing).

Definition calls {E A} (m : M E A) : list E := fst m.
Definition result {E A} (m : M E A) : outcome A := snd m.

(** Python's builtin [any] and [all] over a generator expression: the
    elements are evaluated from the left and evaluation stops at the
    first element that decides the answer, or at the first exception. *)
Fixpoint py_any {E A} (f : A -> M E bool) (l : list A) : M E bool :=
  match l with
  | [] => ret false
  | x :: l' => let* b := f x in if b then ret true else py_any f l'
  end.

Fixpoint py_all {E A} (f : A -> M E bool) (l : list A) : M E bool :=
  match l with
  | [] => ret true
  | x :: l' => let* b := f x in if b then py_all f l' else ret false
  end.

(** ** Python dictionaries keyed by scalars

    An insertion-ordered association list; a key is found by [py_eq]
    (equal keys hash alike). *)
Definition pydict (V : Type) : Type := list (Value * V).

Fixpoint dict_lookup {V} (k : Value) (d : pydict V) : option V :=
  match d with
  | [] => None
  | (k', v) :: d' => if py_eq k' k then Some v else dict_lookup k d'
  end.

(** [k in d] *)
Definition dict_contains {V} (k : Value) (d : pydict V) : bool :=
  match dict_lookup k d with Some _ => true | None => false end.

(** [d[k]] *)
Definition dict_getitem {V} (d : pydict V) (k : Value) : outcome V :=
  match dict_lookup k d with
  | Some v => Returns v
  | None => Raises (KeyError k)
  end.

(** [d[k] = v]: an existing key keeps its place (and its first spelling),
    a new key goes to the end. *)
Fixpoint dict_setitem {V} (k : Value) (v : V) (d : pydict V) : pydict V :=
  match d with
  | [] => [(k, v)]
  | (k', v') :: d' =>
      if py_eq k' k then (k', v) :: d' else (k', v') :: dict_setitem k v d'
  end.

Definition dict_keys {V} (d : pydict V) : list Value := map fst d.
Definition dict_values {V} (d : pydict V) : list V := map snd d.
Definition dict_items {V} (d : pydict V) : list (Value * V) := d.

(** The keys of a dictionary are pairwise different for [==]. *)
Fixpoint dict_wf {V} (d : pydict V) : bool :=
  match d with
  | [] => true
  | (k, _) :: d' => negb (dict_contains k d') && dict_wf d'
  end.

(** ** Regular expressions ([re])

    The compiled patterns of the regular fragment of Python's [re]:
    literals, [.], concatenation, [|] and [*].  [Void] is the pattern that
    matches nothing (the residual of a failed literal). *)
Module re.

Inductive Pattern : Type :=
| Void
| Eps
| Chr (c : ascii)
| Dot
| Cat (p q : Pattern)
| Alt (p q : Pattern)
| Star (p : Pattern).

Fixpoint nullable (p : Pattern) : bool :=
  match p with
  | Void => false
  | Eps => true
  | Chr _ => false
  | Dot => false
  | Cat p q => nullable p && nullable q
  | Alt p q => nullable p || nullable q
  | Star _ => true
  end.

(** [.] matches any character except a newline. *)
Definition newline : ascii := ascii_of_nat 10.
Definition dot_accepts (c : ascii) : bool := negb (Ascii.eqb c newline).

(** What is left of [p] once the character [c] has been read. *)
Fixpoint deriv (c : ascii) (p : Pattern) : Pattern :=
  match p with
  | Void => Void
  | Eps => Void
  | Chr c' => if Ascii.eqb c' c then Eps else Void
  | Dot => if dot_accepts c then Eps else Void
  | Cat p q =>
      if nullable p then Alt (Cat (deriv c p) q) (deriv c q)
      else Cat (deriv c p) q
  | Alt p q => Alt (deriv c p) (deriv c q)
  | Star p => Cat (deriv c p) (Star p)
  end.

(** [p.match(s) is not None]: some prefix of [s] is matched. *)
Fixpoint is_match (p : Pattern) (s : string) : bool :=
  nullable p ||
  match s with
  | EmptyString => false
  | String c s' => is_match (deriv c p) s'
  end.

(** [p.fullmatch(s) is not None]: the whole of [s] is matched. *)
Fixpoint is_fullmatch (p : Pattern) (s : string) : bool :=
  match s with
  | EmptyString => nullable p
  | String c s' => is_fullmatch (deriv c p) s'
  end.

(** [p.search(s) is not None]: a match starts somewhere in [s]. *)
Fixpoint is_search (p : Pattern) (s : string) : bool :=
  is_match p s ||
  match s with
  | EmptyString => false
  | String _ s' => is_search p s'
  end.

(** The strings a pattern denotes. *)
Inductive Matches : Pattern -> string -> Prop :=
| MEps : Matches Eps EmptyString
| MChr c : Matches (Chr c) (String c EmptyString)
| MDot c : dot_accepts c = true -> Matches Dot (String c EmptyString)
| MCat p q s1 s2 :
    Matches p s1 -> Matches q s2 -> Matches (Cat p q) (String.append s1 s2)
| MAltL p q s : Matches p s -> Matches (Alt p q) s
| MAltR p q s : Matches q s -> Matches (Alt p q) s
| MStarNil p : Matches (Star p) EmptyString
| MStarCons p s1 s2 :
    Matches p s1 -> Matches (Star p) s2 ->
    Matches (Star p) (String.append s1 s2).

End re.

(** ** Records, the flush signal and value providers *)

(** A record: scalars, sequences and nested mappings. *)
Inductive PyObj : Type :=
| PScalar (v : Value)
| PList (items : list PyObj)
| PDict (fields : list (string * PyObj)).

(** What travels down a pipeline: a record, or the [Flush] signal
    (which the code recognises by identity, [record is Flush]). *)
Inductive Item : Type :=
| Flush
| Data (record : PyObj).

Definition is_Flush (record : Item) : bool :=
  match record with Flush => true | Data _ => false end.

(** [ProviderContext(document, mappings)], also known to the
    interpretations as [InterpreterContext]. *)
Record ProviderContext : Type := MkProviderContext {
  document : Item;
  mappings : option PyObj
}.
Abbreviation InterpreterContext := ProviderContext.

(** Normalization arguments, [Dict[str, Any]]. *)
Abbreviation Normalization := (gmap string Value).

(** A value provider is the behaviour of its [normalize_single_value]:
    the class itself is not part of the modelled sources.  Being a function
    of the context and the normalization arguments, it is deterministic;
    it may raise. *)
Record ValueProvider : Type := MkValueProvider {
  normalize_single_value : ProviderContext -> Normalization -> outcome Value
}.

(** A literal of the configuration, or a provider. *)
Inductive StaticValueOrValueProvider : Type :=
| Static (value : PyObj)
| Provider (provider : ValueProvider).

(** The calls that are traced. *)
Inductive Event : Type :=
| NormalizeSingleValue (provider : ValueProvider) (context : ProviderContext)
    (norm_args : Normalization)
| FilterRecord (item : Item).

Abbreviation Eff := (M Event).

(** [provider.normalize_single_value(context, norm_args)] as a traced call.
    ([SwitchInterpretation] passes the arguments as keywords,
    [**self.normalization], the matchers pass the mapping itself.) *)
Definition call_normalize_single_value (provider : ValueProvider)
    (context : ProviderContext) (norm_args : Normalization) : Eff Value :=
  ([NormalizeSingleValue provider context norm_args],
   normalize_single_value provider context norm_args).

(** ** [nodestream/pipeline/filters.py] *)

(** [class Filter(Step)]: the concrete filters implement [filter_record]. *)
Class Filter (F : Type) : Type :=
  filter_record : F -> Item -> Eff bool.

(** [self.filter_record(record)] as a traced call. *)
Definition call_filter_record {F} `{Filter F} (self : F) (record : Item)
    : Eff bool :=
  let* _ := tell (FilterRecord record) in filter_record self record.

(** [Filter.process_record]: the items yielded for one input item.
    [or] evaluates its right operand only when the left one is false. *)
Definition process_record {F} `{Filter F} {A} (self : F) (record : Item)
    (_unused : A) : Eff (list Item) :=
  let* keep :=
    (if is_Flush record then ret true
     else let* remove := call_filter_record self record in ret (negb remove)) in
  if keep then ret [record] else ret [].

(** [Filter] itself: its [filter_record] is abstract. *)
Module BaseFilter.

Inductive t : Type := mk.

Definition filter_record (self : t) (record : Item) : Eff bool :=
  raise NotImplementedError.

#[global] Instance is_filter : Filter t := filter_record.

End BaseFilter.

Module ValueMatcher.

Record t : Type := mk {
  value_provider : ValueProvider;
  possibilities : list ValueProvider;
  normalization : Normalization
}.

(** The keyword arguments of [from_file_data]: one entry of [fields]. *)
Record config : Type := mk_config {
  value : StaticValueOrValueProvider;
  config_possibilities : list StaticValueOrValueProvider;
  config_normalization : option Normalization
}.

Section FromFileData.

(** [ValueProvider.guarantee_value_provider] and
    [ValueProvider.guarantee_provider_list] belong to a class outside the
    modelled sources; they are taken as given. *)
Variable guarantee_value_provider : StaticValueOrValueProvider -> ValueProvider.
Variable guarantee_provider_list :
  list StaticValueOrValueProvider -> list ValueProvider.

Definition from_file_data (field : config) : t :=
  mk (guarantee_value_provider (value field))
     (guarantee_provider_list (config_possibilities field))
     (match config_normalization field with Some n => n | None => ∅ end).

End FromFileData.

Definition does_match (self : t) (context : ProviderContext) : Eff bool :=
  let* actual_value :=
    call_normalize_single_value (value_provider self) context
      (normalization self) in
  py_any
    (fun possibility_provider =>
       let* v := call_normalize_single_value possibility_provider context
                   (normalization self) in
       ret (py_eq v actual_value))
    (possibilities self).

End ValueMatcher.

Module ValuesMatchPossibilitiesFilter.

Record t : Type := mk { value_matchers : list ValueMatcher.t }.

Definition from_file_data
    (guarantee_value_provider : StaticValueOrValueProvider -> ValueProvider)
    (guarantee_provider_list :
       list StaticValueOrValueProvider -> list ValueProvider)
    (fields : list ValueMatcher.config) : t :=
  let value_matchers :=
    map (ValueMatcher.from_file_data guarantee_value_provider
           guarantee_provider_list) fields in
  mk value_matchers.

Definition filter_record (self : t) (item : Item) : Eff bool :=
  let context_from_record := MkProviderContext item None in
  let* every :=
    py_all (fun matcher => ValueMatcher.does_match matcher context_from_record)
      (value_matchers self) in
  ret (negb every).

#[global] Instance is_filter : Filter t := filter_record.

End ValuesMatchPossibilitiesFilter.

Module ExcludeWhenValuesMatchPossibilities.

Record t : Type := mk { inner : ValuesMatchPossibilitiesFilter.t }.

Definition from_file_data
    (guarantee_value_provider : StaticValueOrValueProvider -> ValueProvider)
    (guarantee_provider_list :
       list StaticValueOrValueProvider -> list ValueProvider)
    (fields : list ValueMatcher.config) : t :=
  let inner :=
    ValuesMatchPossibilitiesFilter.from_file_data guarantee_value_provider
      guarantee_provider_list fields in
  mk inner.

Definition filter_record (self : t) (record : Item) : Eff bool :=
  let* r := call_filter_record (inner self) record in
  ret (negb r).

#[global] Instance is_filter : Filter t := filter_record.

End ExcludeWhenValuesMatchPossibilities.

Module RegexMatcher.

(** [regex] holds the pattern that [re.compile] made of the configured
    regular expression when the matcher was built. *)
Record t : Type := mk {
  value_provider : ValueProvider;
  regex : re.Pattern;
  include : bool;
  normalization : Normalization
}.

(** [self.regex.match(actual_value)] accepts a string only. *)
Definition regex_match (p : re.Pattern) (actual_value : Value) : Eff bool :=
  match actual_value with
  | VStr s => ret (re.is_match p s)
  | _ => raise (TypeError "expected string or bytes-like object")
  end.

Definition should_include (self : t) (context : ProviderContext) : Eff bool :=
  let* actual_value :=
    call_normalize_single_value (value_provider self) context
      (normalization self) in
  let* match_ := regex_match (regex self) actual_value in
  ret (if include self then negb match_ else match_).

Section FromFileData.

Variable guarantee_value_provider : StaticValueOrValueProvider -> ValueProvider.

(** [re.compile], which raises on a malformed expression. *)
Variable re_compile : string -> outcome re.Pattern.

(** [RegexMatcher.__init__]: the expression is compiled when the matcher is
    built. *)
Definition __init__ (value_provider : ValueProvider) (regex : string)
    (include : bool) (normalization : Normalization) : outcome t :=
  match re_compile regex with
  | Returns compiled => Returns (mk value_provider compiled include normalization)
  | Raises e => Raises e
  end.

(** [include] defaults to [True], [normalization] to [None]. *)
Definition from_file_data (value : StaticValueOrValueProvider) (regex : string)
    (include : option bool) (normalization : option Normalization) : outcome t :=
  __init__ (guarantee_value_provider value) regex
    (match include with Some b => b | None => true end)
    (match normalization with Some n => n | None => ∅ end).

End FromFileData.

End RegexMatcher.

Module ValueMatchesRegexFilter.

Record t : Type := mk { regex_matcher : RegexMatcher.t }.

Definition filter_record (self : t) (item : Item) : Eff bool :=
  let context_from_record := MkProviderContext item None in
  RegexMatcher.should_include (regex_matcher self) context_from_record.

#[global] Instance is_filter : Filter t := filter_record.

(** [from_file_data(value, regex, include, normalize=None)] *)
Definition from_file_data
    (guarantee_value_provider : StaticValueOrValueProvider -> ValueProvider)
    (re_compile : string -> outcome re.Pattern)
    (value : StaticValueOrValueProvider) (regex : string) (include : bool)
    (normalize : option Normalization) : outcome t :=
  match RegexMatcher.from_file_data guarantee_value_provider re_compile
          value regex (Some include) normalize with
  | Returns regex_matcher => Returns (mk regex_matcher)
  | Raises e => Raises e
  end.

End ValueMatchesRegexFilter.

(** *** What the statements about filters speak of *)

(** A matcher matches, or fails on, the record of a context. *)
Definition matches (context : ProviderContext) (matcher : ValueMatcher.t) : Prop :=
  result (ValueMatcher.does_match matcher context) = Returns true.

Definition fails (context : ProviderContext) (matcher : ValueMatcher.t) : Prop :=
  result (ValueMatcher.does_match matcher context) = Returns false.

(** The test [does_match] applies to one possibility. *)
Definition possibility_equals (context : ProviderContext) (norm_args : Normalization)
    (actual_value : Value) (possibility_provider : ValueProvider) : Eff bool :=
  let* v := call_normalize_single_value possibility_provider context norm_args in
  ret (py_eq v actual_value).

(** *** Chains of filters *)

(** Any concrete filter, with its [filter_record]. *)
Inductive AnyFilter : Type :=
| any_filter {F : Type} `{Filter F} (self : F).

(** Feed every item of [items] to [step], in order, and chain the outputs. *)
Fixpoint for_each {A B} (step : A -> Eff (list B)) (items : list A)
    : Eff (list B) :=
  match items with
  | [] => ret []
  | x :: items' =>
      let* ys := step x in
      let* rest := for_each step items' in
      ret (ys ++ rest)
  end.

(** Modelled from the spec: the pipeline runner that wires steps into a chain
    is not part of the modelled sources; section 4.1 has each step's output
    stream feed the next step, the outputs of distinct inputs not
    interleaving. *)
Fixpoint process_chain (chain : list AnyFilter) (item : Item) : Eff (list Item) :=
  match chain with
  | [] => ret [item]
  | any_filter self :: chain' =>
      let* out := process_record self item tt in
      for_each (process_chain chain') out
  end.

(** ** [nodestream/interpreting/swtich_interpretation.py] *)

(** Python's truth value of parsed configuration data. *)
Definition py_truthy (o : PyObj) : bool :=
  match o with
  | PScalar VNone => false
  | PScalar (VBool b) => b
  | PScalar (VInt z) => negb (Z.eqb z 0)
  | PScalar (VStr s) => negb (String.eqb s EmptyString)
  | PList items => match items with [] => false | _ => true end
  | PDict fields => match fields with [] => false | _ => true end
  end.

(** Keyword unpacking of a mapping in a call: the arguments it gives. *)
Definition as_kwargs (o : PyObj) : outcome (list (string * PyObj)) :=
  match o with
  | PDict fields => Returns fields
  | _ => Raises (TypeError "argument after ** must be a mapping")
  end.

Module SwitchInterpretation.

(** The slots of a [SwitchInterpretation].  [I] is what the compiled child
    interpretations are: the objects [Interpretation.from_file_arguments]
    returns, which the switch only holds and hands on. *)
Record t (I : Type) : Type := mk {
  switch_on : ValueProvider;
  interpretations : pydict I;
  default : option I;
  normalization : Normalization
}.
Arguments mk {I}.
Arguments switch_on {I}.
Arguments interpretations {I}.
Arguments default {I}.
Arguments normalization {I}.

Section Init.
Context {I : Type}.

(** [ValueProvider.garuntee_value_provider] and
    [Interpretation.from_file_arguments] belong to classes outside the
    modelled sources; they are taken as given. *)
Variable garuntee_value_provider : StaticValueOrValueProvider -> ValueProvider.
Variable from_file_arguments : list (string * PyObj) -> outcome I.

(** The dictionary comprehension over [cases.items()]. *)
Fixpoint compile_cases (items : list (Value * PyObj)) (acc : pydict I)
    : outcome (pydict I) :=
  match items with
  | [] => Returns acc
  | (field_value, interpretation) :: items' =>
      match as_kwargs interpretation with
      | Raises e => Raises e
      | Returns kwargs =>
          match from_file_arguments kwargs with
          | Raises e => Raises e
          | Returns child =>
              compile_cases items' (dict_setitem field_value child acc)
          end
      end
  end.

(** The default, compiled [if default], and [None] otherwise. *)
Definition compile_default (default : option PyObj) : outcome (option I) :=
  match default with
  | None => Returns None
  | Some cfg =>
      if py_truthy cfg then
        match as_kwargs cfg with
        | Raises e => Raises e
        | Returns kwargs =>
            match from_file_arguments kwargs with
            | Raises e => Raises e
            | Returns d => Returns (Some d)
            end
        end
      else Returns None
  end.

(** [SwitchInterpretation.__init__] *)
Definition __init__ (switch_on : StaticValueOrValueProvider)
    (cases : pydict PyObj) (default : option PyObj)
    (normalization : option Normalization) : outcome (t I) :=
  let switch_on := garuntee_value_provider switch_on in
  match compile_cases (dict_items cases) [] with
  | Raises e => Raises e
  | Returns interpretations =>
      match compile_default default with
      | Raises e => Raises e
      | Returns default =>
          Returns (mk switch_on interpretations default
                     (match normalization with
                      | Some n => n
                      | None => ∅
                      end))
      end
  end.

End Init.

(** [all_subordinate_components]: what the generator yields, in order.
    A compiled interpretation is an ordinary object and hence true, so
    [if self.default] tells whether there is one. *)
Definition all_subordinate_components {I} (self : t I) : list I :=
  dict_values (interpretations self) ++
  match default self with
  | Some d => [d]
  | None => []
  end.

(** [interpret], given how a child interprets a context. *)
Definition interpret {I O} (interpret_child : I -> InterpreterContext -> Eff O)
    (self : t I) (context : InterpreterContext) : Eff O :=
  let* value_to_look_for :=
    call_normalize_single_value (switch_on self) context (normalization self) in
  if negb (dict_contains value_to_look_for (interpretations self)) then
    match default self with
    | Some d => interpret_child d context
    | None => raise (UnhandledBranchError value_to_look_for)
    end
  else
    let* child := lift (dict_getitem (interpretations self) value_to_look_for) in
    interpret_child child context.

(** The same switch over other children. *)
Definition map_children {I J} (g : I -> J) (self : t I) : t J :=
  mk (switch_on self)
     (map (fun kv => (fst kv, g (snd kv))) (interpretations self))
     (option_map g (default self))
     (normalization self).

End SwitchInterpretation.

(** The tree of compiled interpretations: a switch, or an interpretation of
    another kind, of which only the name and the behaviour of [interpret]
    are known. *)
Inductive Interpretation (O : Type) : Type :=
| Other (name : string) (run : InterpreterContext -> Eff O)
| Switch (self : SwitchInterpretation.t (Interpretation O)).
Arguments Other {O}.
Arguments Switch {O}.

(** [Interpretation.interpret], by dynamic dispatch.  The children of a
    switch are replaced by what they would do on [context], of which the
    switch then runs the one it selects; [interpret_Switch] states it as
    the method applied to the children. *)
Fixpoint interpret {O} (i : Interpretation O) (context : InterpreterContext)
    : Eff O :=
  match i with
  | Other _ run => run context
  | Switch self =>
      SwitchInterpretation.interpret (fun todo _ => todo)
        (SwitchInterpretation.map_children
           (fun child => interpret child context) self)
        context
  end.

(** A case is compiled to the child of an entry under the same key. *)
Definition compiled_from {I} (from_file_arguments : list (string * PyObj) -> outcome I)
    (case : Value * PyObj) (entry : Value * I) : Prop :=
  fst entry = fst case /\
  exists kwargs, as_kwargs (snd case) = Returns kwargs /\
                 from_file_arguments kwargs = Returns (snd entry).

(** ** Schema expansion over the interpretation tree *)

Module SchemaExpansionCoordinator.

(** Compiled interpretations are objects; two parents may hold the same
    one.  A node is known by its identity. *)
Abbreviation NodeId := nat.

(** An object of the heap: a switch, holding its children by reference, or
    an interpretation of another kind with the components it enumerates. *)
Inductive Node : Type :=
| SwitchNode (self : SwitchInterpretation.t NodeId)
| OtherNode (subordinates : list NodeId).

Definition all_subordinate_components (node : Node) : list NodeId :=
  match node with
  | SwitchNode self => SwitchInterpretation.all_subordinate_components self
  | OtherNode subordinates => subordinates
  end.

Definition children (heap : gmap NodeId Node) (n : NodeId) : list NodeId :=
  match heap !! n with
  | Some node => all_subordinate_components node
  | None => []
  end.

(** [m] is [n] or below it. *)
Inductive reachable (heap : gmap NodeId Node) : NodeId -> NodeId -> Prop :=
| reachable_here n : reachable heap n n
| reachable_below n c m :
    c ∈ children heap n -> reachable heap c m -> reachable heap n m.

(** Every identity the walk from [root] can come across. *)
Definition universe (heap : gmap NodeId Node) (root : NodeId) : gset NodeId :=
  {[root]} ∪
  ⋃ ((fun entry => list_to_set (all_subordinate_components (snd entry)))
       <$> map_to_list heap).

Fixpoint fold_option {A S} (f : A -> S -> option S) (l : list A) (s : S)
    : option S :=
  match l with
  | [] => Some s
  | x :: l' =>
      match f x s with
      | Some s' => fold_option f l' s'
      | None => None
      end
  end.

Section Coordinator.
Context {Schema : Type}.
Variable empty_schema : Schema.
Variable merge : Schema -> Schema -> Schema.
Variable contribution : NodeId -> Schema.

(** Modelled from the spec: the state of the coordinator, which is not part
    of the modelled sources: the identities seen (the visited set of
    section 9), the nodes in the order of their visits, and the schema
    merged so far. *)
Record state : Type := mk_state {
  visited : gset NodeId;
  visits : list NodeId;
  schema : Schema
}.

Definition initial : state := mk_state ∅ [] empty_schema.

(** Modelled from the spec: a visit marks the node and merges the
    contribution its hook declares (section 4.5). *)
Definition visit (n : NodeId) (st : state) : state :=
  mk_state ({[n]} ∪ visited st) (visits st ++ [n])
    (merge (schema st) (contribution n)).

(** Modelled from the spec: the coordinator is not part of the modelled
    sources.  Sections 4.5 and 9 describe a generic depth-first walk over
    [all_subordinate_components] that calls each node's contribution hook
    and merges it, with a visited set keyed by node identity.  [fuel]
    bounds the depth of the recursion. *)
Fixpoint expand (heap : gmap NodeId Node) (fuel : nat) (n : NodeId) (st : state)
    : option state :=
  match fuel with
  | O => None
  | S fuel' =>
      if decide (n ∈ visited st) then Some st
      else fold_option (expand heap fuel') (children heap n) (visit n st)
  end.

(** Modelled from the spec: the walk from a root, as section 4.5 has it;
    the depth of the recursion cannot exceed the number of identities. *)
Definition expand_schema (heap : gmap NodeId Node) (root : NodeId)
    : option state :=
  expand heap (S (size (universe heap root))) root initial.

(** The visits list the identities seen, each once, and the schema is
    their contributions merged in that order. *)
Definition consistent (st : state) : Prop :=
  (forall n, n ∈ visits st <-> n ∈ visited st) /\
  NoDup (visits st) /\
  schema st = fold_left merge (map contribution (visits st)) empty_schema.

(** Every node seen, apart from those still being walked, has all its
    components seen. *)
Definition closed_except (heap : gmap NodeId Node) (open : gset NodeId)
    (st : state) : Prop :=
  forall v, v ∈ visited st -> v ∉ open ->
    forall c, c ∈ children heap v -> c ∈ visited st.

(** What a walk of the nodes [from], begun in [st], leaves in [st']. *)
Definition expand_post (heap : gmap NodeId Node) (open : gset NodeId)
    (from : list NodeId) (st st' : state) : Prop :=
  consistent st' /\
  visited st ⊆ visited st' /\
  (forall c, c ∈ from -> c ∈ visited st') /\
  closed_except heap open st' /\
  (forall m, m ∈ visited st' ->
     m ∈ visited st \/ exists c, c ∈ from /\ reachable heap c m).

End Coordinator.

End SchemaExpansionCoordinator.

(** ** [nodestream/project/pipeline_progress_reporter.py] *)

Module PipelineProgressReporter.

(** A logger, known by its name. *)
Abbreviation Logger := string.

(** [logging.getLogger()] gives the root logger. *)
Definition getLogger : Logger := "root"%string.

(** What a reporter does to the outside: a line logged at level INFO with
    the index in its [extra] (the memory reading of [get_max_mem_mb], which
    [extra] carries as well, is not modelled), and whatever a callback
    does. *)
Inductive ReportEvent : Type :=
| LoggerInfo (logger : Logger) (msg : string) (index : Z)
| CallbackCalled (index : Z) (record : Item).

(** A callable.  The field [callback] holds one, or [None]. *)
Abbreviation Callback := (Z -> Item -> M ReportEvent unit).

Record t : Type := mk {
  reporting_frequency : Z;
  logger : Logger;
  callback : option Callback
}.

(** [PipelineProgressReporter()]: every field from its default; the default
    factory of [callback] is [lambda: None]. *)
Definition default_callback_factory : option Callback := None.
Definition defaults : t := mk 1000 getLogger default_callback_factory.

(** [a % b] on integers. *)
Definition py_mod (a b : Z) : outcome Z :=
  if Z.eqb b 0 then Raises ZeroDivisionError else Returns (a mod b).

(** Calling an object that may be [None]. *)
Definition call (f : option Callback) (index : Z) (record : Item)
    : M ReportEvent unit :=
  match f with
  | Some callable => callable index record
  | None => raise (TypeError "'NoneType' object is not callable")
  end.

Definition report (self : t) (index : Z) (record : Item) : M ReportEvent unit :=
  let* _ := tell (LoggerInfo (logger self) "Records Processed" index) in
  call (callback self) index record.

(** The loop over [enumerate_async(pipeline.run())], from [index] on;
    [records] is what the pipeline yields. *)
Fixpoint execute_from (self : t) (index : Z) (records : list Item)
    : M ReportEvent unit :=
  match records with
  | [] => ret tt
  | record :: records' =>
      let* remainder := lift (py_mod index (reporting_frequency self)) in
      let* _ := (if Z.eqb remainder 0 then report self index record
                 else ret tt) in
      execute_from self (index + 1) records'
  end.

Definition execute_with_reporting (self : t) (pipeline_run : list Item)
    : M ReportEvent unit :=
  execute_from self 0 pipeline_run.

End PipelineProgressReporter.

(** ** [nodestream/project/pipeline_definition.py] *)

Module PipelineDefinition.

(** The values of the mapping a definition is read from and written to. *)
Inductive FileValue : Type :=
| FStr (s : string)
| FBool (b : bool)
| FAnnotations (a : gmap string Value)
| FList (l : list string)
| FSet (s : gset string).

(** File data: a path alone, or a mapping. *)
Inductive FileData : Type :=
| FilePath (path : string)
| FileDict (fields : gmap string FileValue).

(** [d.pop(key)]: the value and the mapping without the key. *)
Definition pop (key : string) (data : gmap string FileValue)
    : outcome (FileValue * gmap string FileValue) :=
  match data !! key with
  | Some v => Returns (v, delete key data)
  | None => Raises (KeyError (VStr key))
  end.

(** [d.pop(key, default)] *)
Definition pop_default (key : string) (default : FileValue)
    (data : gmap string FileValue) : FileValue * gmap string FileValue :=
  match data !! key with
  | Some v => (v, delete key data)
  | None => (default, data)
  end.

(** The fields of the dataclass hold values of the declared types; file
    data is checked against [describe_yaml_schema] before it is read, and a
    value of another type, which the schema excludes, is reported here as a
    [TypeError]. *)
Definition as_str (v : FileValue) : outcome string :=
  match v with FStr s => Returns s | _ => Raises (TypeError "str expected") end.

Definition as_bool (v : FileValue) : outcome bool :=
  match v with FBool b => Returns b | _ => Raises (TypeError "bool expected") end.

Definition as_annotations (v : FileValue) : outcome (gmap string Value) :=
  match v with
  | FAnnotations a => Returns a
  | _ => Raises (TypeError "mapping expected")
  end.

(** [set(targets)] *)
Definition as_set (v : FileValue) : outcome (gset string) :=
  match v with
  | FList l => Returns (list_to_set l)
  | FSet s => Returns s
  | _ => Raises (TypeError "iterable of str expected")
  end.

Definition obind {A B} (o : outcome A) (k : A -> outcome B) : outcome B :=
  match o with Returns a => k a | Raises e => Raises e end.

(** An annotation is of one of the types [str], [int], [bool] (and
    [float], which is not modelled): not [None]. *)
Definition annotation_value_ok (v : Value) : bool :=
  match v with VNone => false | _ => true end.

(** What the schema asks of the value under an optional key. *)
Definition optional_entry (ok : FileValue -> bool) (entry : option FileValue)
    : bool :=
  match entry with
  | Some v => ok v
  | None => true
  end.

(** [describe_yaml_schema], as the file data that the schema it builds
    accepts: a string, or a mapping that has [path], for which
    [os.path.exists] ([path_exists], applied to the value) holds, that may
    have [name] (a string), [annotations] (a mapping of strings to
    annotation values), [targets] (a list of strings) and
    [exclude_inherited_targets] (a boolean), and that has no other key. *)
Definition describe_yaml_schema (path_exists : FileValue -> bool)
    (data : FileData) : bool :=
  match data with
  | FilePath _ => true
  | FileDict fields =>
      match fields !! "path"%string with
      | Some v => path_exists v
      | None => false
      end
      && optional_entry (fun v => match v with FStr _ => true | _ => false end)
           (fields !! "name"%string)
      && optional_entry
           (fun v => match v with
                     | FAnnotations a =>
                         bool_decide
                           (map_Forall (fun _ x => annotation_value_ok x = true) a)
                     | _ => false
                     end)
           (fields !! "annotations"%string)
      && optional_entry (fun v => match v with FList _ => true | _ => false end)
           (fields !! "targets"%string)
      && optional_entry (fun v => match v with FBool _ => true | _ => false end)
           (fields !! "exclude_inherited_targets"%string)
      && bool_decide
           (dom fields ⊆
            ({["path"; "name"; "annotations"; "targets";
               "exclude_inherited_targets"]}%string : gset string))
  end.

Section WithPath.

(** [pathlib.Path], with [Path(s)], [str(p)] and [p.stem]. *)
Context {Path : Type}.
Variable Path_of_str : string -> Path.
Variable str : Path -> string.
Variable stem : Path -> string.

Record t : Type := mk {
  name : string;
  file_path : Path;
  targets : gset string;
  exclude_inherited_targets : bool;
  annotations : gmap string Value
}.

Definition get_default_name (file_path : Path) : string := stem file_path.

Definition from_path (file_path : Path) : t :=
  mk (get_default_name file_path) file_path ∅ false ∅.

(** [{**parent_annotations, **annotations}]: the later mapping wins. *)
Definition merge_annotations (parent_annotations annotations : gmap string Value)
    : gmap string Value :=
  annotations ∪ parent_annotations.

Definition from_file_data (data : FileData)
    (parent_annotations : gmap string Value) : outcome t :=
  let data :=
    match data with
    | FilePath s => {["path"%string := FStr s]}
    | FileDict d => d
    end in
  obind (pop "path" data) (fun '(path, data) =>
  obind (as_str path) (fun path =>
  let file_path := Path_of_str path in
  let '(name, data) :=
    pop_default "name" (FStr (get_default_name file_path)) data in
  let '(exclude_targets, data) :=
    pop_default "exclude_inherited_targets" (FBool false) data in
  let '(annotations, data) := pop_default "annotations" (FAnnotations ∅) data in
  let '(targets, data) := pop_default "targets" (FList []) data in
  obind (as_str name) (fun name =>
  obind (as_set targets) (fun targets =>
  obind (as_bool exclude_targets) (fun exclude_targets =>
  obind (as_annotations annotations) (fun annotations =>
  Returns (mk name file_path targets exclude_targets
             (merge_annotations parent_annotations annotations)))))))).

Definition to_file_data (self : t) (verbose : bool) : FileData :=
  let using_default_name :=
    bool_decide (name self = stem (file_path self)) in
  if using_default_name && negb (bool_decide (annotations self ≠ ∅))
     && negb verbose
  then FilePath (str (file_path self))
  else
    let result : gmap string FileValue :=
      {["path"%string := FStr (str (file_path self))]} in
    let result :=
      if negb using_default_name || verbose
      then <["name"%string := FStr (name self)]> result else result in
    let result :=
      if bool_decide (annotations self ≠ ∅) || verbose
      then <["annotations"%string := FAnnotations (annotations self)]> result
      else result in
    let result :=
      if bool_decide (targets self ≠ ∅) || verbose
      then <["targets"%string := FSet (targets self)]> result else result in
    FileDict result.

End WithPath.

End PipelineDefinition.

(** ** Inputs of the examples *)

(** A provider that always resolves to the same value. *)
Definition constant_provider (v : Value) : ValueProvider :=
  MkValueProvider (fun _ _ => Returns v).

(** A matcher of a fixed subject against fixed possibilities. *)
Definition matcher_of (v : Value) (choices : list Value) : ValueMatcher.t :=
  ValueMatcher.mk (constant_provider v) (map constant_provider choices) ∅.

(** A provider that reads a top-level field of the record ([None] when the
    field is absent or not a scalar). *)
Definition field_provider (name : string) : ValueProvider :=
  MkValueProvider (fun context _ =>
    match document context with
    | Data (PDict fields) =>
        match List.find (fun kv => String.eqb (fst kv) name) fields with
        | Some (_, PScalar v) => Returns v
        | _ => Returns VNone
        end
    | _ => Returns VNone
    end).

(** An interpretation that answers its name; a record with a [type]; the
    switch on [type] with the cases [a] and [b]. *)
Definition answer (name : string) : Interpretation string :=
  Other name (fun _ => ret name).

Definition record_of_type (type : string) : InterpreterContext :=
  MkProviderContext (Data (PDict [("type"%string, PScalar (VStr type))])) None.

Definition example_switch (default : option (Interpretation string))
    : SwitchInterpretation.t (Interpretation string) :=
  SwitchInterpretation.mk (field_provider "type")
    [(VStr "a", answer "X"); (VStr "b", answer "Y")] default ∅.

(** The compiler and the provider guarantee of the examples. *)
Definition example_from_file_arguments (kwargs : list (string * PyObj))
    : outcome (Interpretation string) :=
  match kwargs with
  | [(_, PScalar (VStr name))] => Returns (answer name)
  | _ => Raises (OtherError "unknown interpretation")
  end.

Definition example_garuntee (v : StaticValueOrValueProvider) : ValueProvider :=
  match v with
  | Provider p => p
  | Static (PScalar s) => constant_provider s
  | Static _ => constant_provider VNone
  end.

Definition example_config (name : string) : PyObj :=
  PDict [("type"%string, PScalar (VStr name))].

(** A diamond: the two cases of the root are switches whose defaults are
    one and the same node. *)
Definition switch_node (cases : pydict nat) (default : option nat)
    : SchemaExpansionCoordinator.Node :=
  SchemaExpansionCoordinator.SwitchNode
    (SwitchInterpretation.mk (field_provider "type") cases default ∅).

Definition diamond : gmap nat SchemaExpansionCoordinator.Node :=
  <[0%nat := switch_node [(VStr "a", 1%nat); (VStr "b", 2%nat)] None]>
  (<[1%nat := switch_node [] (Some 3%nat)]>
  (<[2%nat := switch_node [] (Some 3%nat)]>
  (<[3%nat := SchemaExpansionCoordinator.OtherNode []]> ∅))).

(** The same diamond with the cases of the root in the other order. *)
Definition diamond_reversed : gmap nat SchemaExpansionCoordinator.Node :=
  <[0%nat := switch_node [(VStr "b", 2%nat); (VStr "a", 1%nat)] None]> diamond.

(** Paths of the examples: normalized relative POSIX paths, kept as their
    string.  The stem is the last component without its last suffix. *)
Fixpoint rindex (c : ascii) (s : string) (i : nat) : option nat :=
  match s with
  | EmptyString => None
  | String c' s' =>
      match rindex c s' (S i) with
      | Some j => Some j
      | None => if Ascii.eqb c' c then Some i else None
      end
  end.

Definition posix_name (s : string) : string :=
  match rindex "/" s 0 with
  | Some j => String.substring (S j) (String.length s - S j) s
  | None => s
  end.

Definition posix_stem (s : string) : string :=
  let name := posix_name s in
  match rindex "." name 0 with
  | Some i =>
      if (Nat.ltb 0 i && Nat.ltb i (String.length name - 1))%bool
      then String.substring 0 i name else name
  | None => name
  end.

(** A definition with a target and with [exclude_inherited_targets] set. *)
Definition people_pipeline : @PipelineDefinition.t string :=
  PipelineDefinition.mk "people" "pipelines/people.yaml" {["prod"%string]}
    true ∅.

(** A matcher on the field [type] of the record. *)
Definition type_is_one_of (choices : list Value) : ValueMatcher.t :=
  ValueMatcher.mk (field_provider "type") (map constant_provider choices) ∅.

(** A callback that leaves a trace of its call. *)
Definition noting_callback (index : Z) (record : Item)
    : M PipelineProgressReporter.ReportEvent unit :=
  tell (PipelineProgressReporter.CallbackCalled index record).

(** ** What the further properties speak of *)

(** The configuration [cfg] does not compile, with the exception [e]: it is
    not a mapping, or [from_file_arguments] raises on it. *)
Definition fails_to_compile {I}
    (from_file_arguments : list (string * PyObj) -> outcome I)
    (cfg : PyObj) (e : Exn) : Prop :=
  as_kwargs cfg = Raises e \/
  exists kwargs, as_kwargs cfg = Returns kwargs /\
                 from_file_arguments kwargs = Raises e.

(** The configuration [cfg] compiles. *)
Definition compiles {I}
    (from_file_arguments : list (string * PyObj) -> outcome I)
    (cfg : PyObj) : Prop :=
  exists kwargs child, as_kwargs cfg = Returns kwargs /\
                       from_file_arguments kwargs = Returns child.

(** [enumerate], counting from [start]. *)
Fixpoint enumerate_from {A} (start : Z) (l : list A) : list (Z * A) :=
  match l with
  | [] => []
  | x :: l' => (start, x) :: enumerate_from (start + 1) l'
  end.

(** What the record of an index leaves in the trace of a reporter with the
    callback [cb]: the line logged and the calls of the callback when the
    index is a multiple of the frequency, and nothing otherwise. *)
Definition due_report (self : PipelineProgressReporter.t)
    (cb : Z -> Item -> M PipelineProgressReporter.ReportEvent unit)
    (entry : Z * Item) : list PipelineProgressReporter.ReportEvent :=
  if Z.eqb (fst entry mod PipelineProgressReporter.reporting_frequency self) 0
  then PipelineProgressReporter.LoggerInfo
         (PipelineProgressReporter.logger self) "Records Processed" (fst entry)
       :: calls (cb (fst entry) (snd entry))
  else [].

(** A definition with an annotation of its own, and annotations of a
    parent. *)
Definition annotated_pipeline : @PipelineDefinition.t string :=
  PipelineDefinition.mk "people" "pipelines/people.yaml" ∅ false
    {["team"%string := VStr "data"]}.

Definition parent_annotations_example : gmap string Value :=
  <["team"%string := VStr "ops"]> {["env"%string := VStr "prod"]}.

(** * Properties *)

(** ** Properties of the effect monad and of [any] / [all] *)

Lemma result_bind {E A B} (m : M E A) (k : A -> M E B) :
  result (bind m k) =
  match result m with Returns a => result (k a) | Raises e => Raises e end.
Proof.
  destruct m as [t [a | e]]; simpl; [| reflexivity].
  destruct (k a); reflexivity.
Qed.

Lemma calls_bind {E A B} (m : M E A) (k : A -> M E B) :
  calls (bind m k) =
  calls m ++ match result m with Returns a => calls (k a) | Raises _ => [] end.
Proof.
  destruct m as [t [a | e]]; simpl.
  - destruct (k a); reflexivity.
  - symmetry. apply app_nil_r.
Qed.

Lemma py_all_true {E A} (f : A -> M E bool) (l : list A) :
  result (py_all f l) = Returns true <->
  Forall (fun x => result (f x) = Returns true) l.
Proof.
  induction l as [| x l IH]; simpl.
  - split; [constructor | reflexivity].
  - rewrite result_bind. split.
    + destruct (result (f x)) as [[|] |] eqn:Hx; try discriminate.
      intros H. constructor; [assumption | now apply IH].
    + intros H. inversion H as [| ? ? Hx Hl]; subst. rewrite Hx. now apply IH.
Qed.

Lemma py_all_false {E A} (f : A -> M E bool) (l : list A) :
  result (py_all f l) = Returns false <->
  exists pre x post, l = pre ++ x :: post /\
    Forall (fun y => result (f y) = Returns true) pre /\
    result (f x) = Returns false.
Proof.
  induction l as [| x l IH]; simpl.
  - split; [discriminate |].
    intros (pre & y & post & H & _). now destruct pre.
  - rewrite result_bind. split.
    + destruct (result (f x)) as [[|] |] eqn:Hx; try discriminate.
      * intros H. apply IH in H as (pre & y & post & -> & Hpre & Hy).
        exists (x :: pre), y, post. repeat split; [constructor |]; assumption.
      * intros _. exists [], x, l. repeat split; [constructor | assumption].
    + intros (pre & y & post & Heq & Hpre & Hy).
      destruct pre as [| z pre]; simpl in Heq; injection Heq as -> ->.
      * now rewrite Hy.
      * inversion Hpre as [| ? ? Hz Hpre']; subst. rewrite Hz.
        apply IH. now exists pre, y, post.
Qed.

Lemma py_any_true {E A} (f : A -> M E bool) (l : list A) :
  result (py_any f l) = Returns true <->
  exists pre x post, l = pre ++ x :: post /\
    Forall (fun y => result (f y) = Returns false) pre /\
    result (f x) = Returns true.
Proof.
  induction l as [| x l IH]; simpl.
  - split; [discriminate |].
    intros (pre & y & post & H & _). now destruct pre.
  - rewrite result_bind. split.
    + destruct (result (f x)) as [[|] |] eqn:Hx; try discriminate.
      * intros _. exists [], x, l. repeat split; [constructor | assumption].
      * intros H. apply IH in H as (pre & y & post & -> & Hpre & Hy).
        exists (x :: pre), y, post. repeat split; [constructor |]; assumption.
    + intros (pre & y & post & Heq & Hpre & Hy).
      destruct pre as [| z pre]; simpl in Heq; injection Heq as -> ->.
      * now rewrite Hy.
      * inversion Hpre as [| ? ? Hz Hpre']; subst. rewrite Hz.
        apply IH. now exists pre, y, post.
Qed.

Lemma py_any_false {E A} (f : A -> M E bool) (l : list A) :
  result (py_any f l) = Returns false <->
  Forall (fun x => result (f x) = Returns false) l.
Proof.
  induction l as [| x l IH]; simpl.
  - split; [constructor | reflexivity].
  - rewrite result_bind. split.
    + destruct (result (f x)) as [[|] |] eqn:Hx; try discriminate.
      intros H. constructor; [assumption | now apply IH].
    + intros H. inversion H as [| ? ? Hx Hl]; subst. rewrite Hx. now apply IH.
Qed.

(** When every element evaluates to a boolean, [any] and [all] are the
    plain quantifiers. *)
Lemma py_all_false_total {E A} (f : A -> M E bool) (l : list A) :
  Forall (fun x => exists b, result (f x) = Returns b) l ->
  (result (py_all f l) = Returns false <->
   Exists (fun x => result (f x) = Returns false) l).
Proof.
  intros Htot. rewrite py_all_false. split.
  - intros (pre & x & post & -> & _ & Hx).
    apply Exists_app. right. now constructor.
  - induction 1 as [x l Hx | x l Hex IH].
    + exists [], x, l. repeat split; [constructor | assumption].
    + inversion Htot as [| ? ? [b Hb] Htot']; subst. destruct b.
      * destruct (IH Htot') as (pre & y & post & -> & Hpre & Hy).
        exists (x :: pre), y, post. repeat split; [constructor |]; assumption.
      * exists [], x, l. repeat split; [constructor | assumption].
Qed.

Lemma py_any_true_total {E A} (f : A -> M E bool) (l : list A) :
  Forall (fun x => exists b, result (f x) = Returns b) l ->
  (result (py_any f l) = Returns true <->
   Exists (fun x => result (f x) = Returns true) l).
Proof.
  intros Htot. rewrite py_any_true. split.
  - intros (pre & x & post & -> & _ & Hx).
    apply Exists_app. right. now constructor.
  - induction 1 as [x l Hx | x l Hex IH].
    + exists [], x, l. repeat split; [constructor | assumption].
    + inversion Htot as [| ? ? [b Hb] Htot']; subst. destruct b.
      * exists [], x, l. repeat split; [constructor | assumption].
      * destruct (IH Htot') as (pre & y & post & -> & Hpre & Hy).
        exists (x :: pre), y, post. repeat split; [constructor |]; assumption.
Qed.

(** ** Filters *)

(** What [process_record] yields for a record, from what the predicate
    answers. *)
Lemma process_record_result {F} `{Filter F} {A} (self : F) (r : PyObj) (u : A) :
  result (process_record self (Data r) u) =
  match result (filter_record self (Data r)) with
  | Returns remove => Returns (if remove then [] else [Data r])
  | Raises e => Raises e
  end.
Proof.
  unfold process_record, call_filter_record. simpl is_Flush. cbv iota.
  rewrite !result_bind. simpl.
  destruct (result (filter_record self (Data r))) as [[|] |]; reflexivity.
Qed.

Lemma process_record_keeps {F} `{Filter F} {A} (self : F) (r : PyObj) (u : A) :
  result (process_record self (Data r) u) = Returns [Data r] <->
  result (filter_record self (Data r)) = Returns false.
Proof.
  rewrite process_record_result.
  destruct (result (filter_record self (Data r))) as [[|] |];
    split; congruence.
Qed.

Lemma process_record_drops {F} `{Filter F} {A} (self : F) (r : PyObj) (u : A) :
  result (process_record self (Data r) u) = Returns [] <->
  result (filter_record self (Data r)) = Returns true.
Proof.
  rewrite process_record_result.
  destruct (result (filter_record self (Data r))) as [[|] |];
    split; congruence.
Qed.

Lemma values_match_filter_record_result (self : ValuesMatchPossibilitiesFilter.t)
    (item : Item) (b : bool) :
  result (ValuesMatchPossibilitiesFilter.filter_record self item) = Returns b <->
  result (py_all (fun m => ValueMatcher.does_match m (MkProviderContext item None))
            (ValuesMatchPossibilitiesFilter.value_matchers self))
  = Returns (negb b).
Proof.
  unfold ValuesMatchPossibilitiesFilter.filter_record.
  rewrite result_bind. simpl.
  destruct (result (py_all _ _)) as [[|] |]; destruct b; simpl;
    split; congruence.
Qed.

Lemma exclude_filter_record_result (self : ExcludeWhenValuesMatchPossibilities.t)
    (item : Item) :
  result (ExcludeWhenValuesMatchPossibilities.filter_record self item) =
  match result (ValuesMatchPossibilitiesFilter.filter_record
                  (ExcludeWhenValuesMatchPossibilities.inner self) item) with
  | Returns b => Returns (negb b)
  | Raises e => Raises e
  end.
Proof.
  unfold ExcludeWhenValuesMatchPossibilities.filter_record, call_filter_record.
  rewrite !result_bind. simpl.
  change (@filter_record ValuesMatchPossibilitiesFilter.t _)
    with ValuesMatchPossibilitiesFilter.filter_record.
  destruct (result (ValuesMatchPossibilitiesFilter.filter_record _ _));
    reflexivity.
Qed.

(** C2. A record survives a [ValuesMatchPossibilitiesFilter] built from the
    matchers [Ms] exactly when every matcher matches it; [filter_record]
    answers true (drop) exactly when the matchers evaluated from the left
    reach one that fails, which, when every matcher gives an answer, is to
    say that some matcher fails; and taking one matcher out of [Ms] never
    drops a record that survived. *)
Theorem values_match_filter_survives_iff_all_match
    (Ms : list ValueMatcher.t) (r : PyObj) :
  let self := ValuesMatchPossibilitiesFilter.mk Ms in
  let context := MkProviderContext (Data r) None in
  (result (process_record self (Data r) tt) = Returns [Data r] <->
   Forall (matches context) Ms) /\
  (result (filter_record self (Data r)) = Returns false <->
   Forall (matches context) Ms) /\
  (result (filter_record self (Data r)) = Returns true <->
   exists pre m post, Ms = pre ++ m :: post /\
     Forall (matches context) pre /\ fails context m) /\
  (Forall (fun m => exists b,
             result (ValueMatcher.does_match m context) = Returns b) Ms ->
   (result (filter_record self (Data r)) = Returns true <->
    Exists (fails context) Ms)) /\
  (forall pre m post, Ms = pre ++ m :: post ->
     result (process_record self (Data r) tt) = Returns [Data r] ->
     result (process_record (ValuesMatchPossibilitiesFilter.mk (pre ++ post))
               (Data r) tt) = Returns [Data r]).
Proof.
  intros self context.
  assert (Hkeep : forall l,
    result (filter_record (ValuesMatchPossibilitiesFilter.mk l) (Data r))
      = Returns false <-> Forall (matches context) l).
  { intros l.
    change (@filter_record ValuesMatchPossibilitiesFilter.t _)
      with ValuesMatchPossibilitiesFilter.filter_record.
    rewrite values_match_filter_record_result. simpl. apply py_all_true. }
  assert (Hdrop :
    result (filter_record self (Data r)) = Returns true <->
    result (py_all (fun m => ValueMatcher.does_match m context) Ms)
      = Returns false).
  { change (@filter_record ValuesMatchPossibilitiesFilter.t _)
      with ValuesMatchPossibilitiesFilter.filter_record.
    now rewrite values_match_filter_record_result. }
  repeat split.
  - intros H. apply Hkeep. now apply process_record_keeps in H.
  - intros H. apply process_record_keeps. now apply Hkeep.
  - apply Hkeep.
  - apply Hkeep.
  - intros H. apply Hdrop in H. now apply py_all_false in H.
  - intros H. apply Hdrop. now apply py_all_false.
  - intros H'. apply Hdrop in H'. now apply py_all_false_total in H'.
  - intros H'. apply Hdrop. now apply py_all_false_total.
  - intros pre m post -> Hs.
    apply process_record_keeps. apply Hkeep.
    apply process_record_keeps in Hs. apply Hkeep in Hs.
    apply Forall_app in Hs as [Hpre Hpost].
    apply Forall_app. split; [assumption |]. now inversion Hpost.
Qed.

Lemma values_match_filter_survives_iff_all_match_witness :
  let Ms := [matcher_of (VStr "a") [VStr "b"; VStr "a"];
             matcher_of (VInt 1) [VBool true]] in
  let Ms' := [matcher_of (VStr "a") [VStr "a"];
              matcher_of (VStr "a") [VStr "b"]] in
  let r := PDict [] in
  result (process_record (ValuesMatchPossibilitiesFilter.mk Ms) (Data r) tt)
    = Returns [Data r] /\
  result (process_record (ValuesMatchPossibilitiesFilter.mk (tail Ms)) (Data r) tt)
    = Returns [Data r] /\
  result (filter_record (ValuesMatchPossibilitiesFilter.mk Ms') (Data r))
    = Returns true.
Proof.
  intros Ms Ms' r.
  destruct (values_match_filter_survives_iff_all_match Ms r)
    as (Hsurvives & _ & _ & _ & Hremove).
  assert (Hs : result (process_record (ValuesMatchPossibilitiesFilter.mk Ms)
                         (Data r) tt) = Returns [Data r]).
  { apply Hsurvives. repeat constructor. }
  split; [exact Hs |].
  split; [exact (Hremove [] _ _ eq_refl Hs) |].
  destruct (values_match_filter_survives_iff_all_match Ms' r)
    as (_ & _ & _ & Hsome & _).
  apply Hsome.
  - repeat constructor; eexists; reflexivity.
  - apply Exists_cons_tl, Exists_cons_hd. reflexivity.
Defined.

(** C3. [ExcludeWhenValuesMatchPossibilities] built on the matchers [Ms]
    answers, on every item, the negation of what the
    [ValuesMatchPossibilitiesFilter] built on the same matchers answers
    (and fails when that one fails); so it drops a record exactly when all
    matchers match, and of the two filters exactly one lets the record
    through.  Built from file data, it wraps the filter that the same file
    data gives. *)
Theorem exclude_is_complement_of_values_match
    (Ms : list ValueMatcher.t) (item : Item) :
  let inner := ValuesMatchPossibilitiesFilter.mk Ms in
  let self := ExcludeWhenValuesMatchPossibilities.mk inner in
  let context := MkProviderContext item None in
  (result (filter_record self item) =
   match result (filter_record inner item) with
   | Returns b => Returns (negb b)
   | Raises e => Raises e
   end) /\
  (forall b, result (filter_record self item) = Returns b <->
             result (filter_record inner item) = Returns (negb b)) /\
  (result (filter_record self item) = Returns true <->
   Forall (matches context) Ms) /\
  (forall r, item = Data r ->
     (result (process_record self item tt) = Returns [] <->
      result (process_record inner item tt) = Returns [item]) /\
     (result (process_record self item tt) = Returns [item] <->
      result (process_record inner item tt) = Returns [])) /\
  (forall guarantee_value_provider guarantee_provider_list fields,
     ValuesMatchPossibilitiesFilter.from_file_data guarantee_value_provider
       guarantee_provider_list fields = inner ->
     ExcludeWhenValuesMatchPossibilities.from_file_data guarantee_value_provider
       guarantee_provider_list fields = self).
Proof.
  intros inner self context.
  assert (Hneg : result (filter_record self item) =
                 match result (filter_record inner item) with
                 | Returns b => Returns (negb b)
                 | Raises e => Raises e
                 end) by apply exclude_filter_record_result.
  assert (Hiff : forall b, result (filter_record self item) = Returns b <->
                           result (filter_record inner item) = Returns (negb b)).
  { intros b. rewrite Hneg.
    destruct (result (filter_record inner item)) as [[|] |]; destruct b; simpl;
      split; congruence. }
  split; [exact Hneg |]. split; [exact Hiff |]. split; [| split].
  - rewrite Hiff. simpl negb.
    change (@filter_record ValuesMatchPossibilitiesFilter.t _)
      with ValuesMatchPossibilitiesFilter.filter_record.
    rewrite values_match_filter_record_result. simpl. apply py_all_true.
  - intros r ->. split.
    + rewrite process_record_drops, process_record_keeps. apply Hiff.
    + rewrite process_record_drops, process_record_keeps. apply Hiff.
  - intros g gl fields Hinner.
    unfold ExcludeWhenValuesMatchPossibilities.from_file_data.
    now rewrite Hinner.
Qed.

Lemma exclude_is_complement_of_values_match_witness :
  let Ms := [matcher_of (VStr "a") [VStr "b"; VStr "a"]] in
  let item := Data (PDict []) in
  result (process_record
            (ExcludeWhenValuesMatchPossibilities.mk
               (ValuesMatchPossibilitiesFilter.mk Ms)) item tt) = Returns [] /\
  result (process_record (ValuesMatchPossibilitiesFilter.mk Ms) item tt)
    = Returns [item].
Proof.
  intros Ms item.
  destruct (exclude_is_complement_of_values_match Ms item)
    as (_ & _ & _ & Hrec & _).
  destruct (Hrec (PDict []) eq_refl) as [Hdrop _].
  assert (Hin : result (process_record (ValuesMatchPossibilitiesFilter.mk Ms)
                          item tt) = Returns [item]) by reflexivity.
  split; [apply Hdrop; exact Hin | exact Hin].
Defined.

(** C4. Whatever the filter, [process_record] given [Flush] yields [Flush]
    and nothing else, and makes no call at all while doing so: in
    particular [filter_record] is not called.  Hence a [Flush] entering
    any chain of filters comes out at its end, alone, without any
    predicate having been called. *)
Theorem flush_passes_every_filter_unexamined :
  (forall (F : Type) (is_filter : Filter F) (self : F) (A : Type) (u : A),
     process_record self Flush u = ([], Returns [Flush])) /\
  (forall chain : list AnyFilter,
     process_chain chain Flush = ([], Returns [Flush])).
Proof.
  assert (Hone : forall (F : Type) (is_filter : Filter F) (self : F)
                        (A : Type) (u : A),
             process_record self Flush u = ([], Returns [Flush])).
  { intros. reflexivity. }
  split; [exact Hone |].
  induction chain as [| [F is_filter self] chain IH]; [reflexivity |].
  cbn [process_chain]. rewrite Hone.
  cbn [bind for_each app]. rewrite IH. reflexivity.
Qed.

(** ** Regular expressions: the matcher against the denotation *)

Lemma re_nullable_spec (p : re.Pattern) :
  re.nullable p = true <-> re.Matches p EmptyString.
Proof.
  induction p as [| | c | | p IHp q IHq | p IHp q IHq | p IHp]; simpl.
  - split; [discriminate | inversion 1].
  - split; [constructor | reflexivity].
  - split; [discriminate | inversion 1].
  - split; [discriminate | inversion 1].
  - rewrite andb_true_iff, IHp, IHq. split.
    + intros [Hp Hq]. apply (re.MCat p q EmptyString EmptyString Hp Hq).
    + inversion 1 as [| | | ? ? s1 s2 Hp Hq Heq | | | |]; subst.
      destruct s1; [| discriminate]. destruct s2; [| discriminate].
      now split.
  - rewrite orb_true_iff, IHp, IHq. split.
    + intros [Hp | Hq]; [now apply re.MAltL | now apply re.MAltR].
    + inversion 1; subst; [now left | now right].
  - split; [constructor | reflexivity].
Qed.

Lemma re_deriv_sound (c : ascii) (p : re.Pattern) (s : string) :
  re.Matches (re.deriv c p) s -> re.Matches p (String c s).
Proof.
  revert s.
  induction p as [| | c' | | p IHp q IHq | p IHp q IHq | p IHp];
    simpl; intros s H.
  - inversion H.
  - inversion H.
  - destruct (Ascii.eqb_spec c' c) as [-> |]; inversion H; subst. constructor.
  - destruct (re.dot_accepts c) eqn:Hc; inversion H; subst. now constructor.
  - assert (Hcat : forall t, re.Matches (re.Cat (re.deriv c p) q) t ->
                             re.Matches (re.Cat p q) (String c t)).
    { intros t Ht.
      inversion Ht as [| | | ? ? s1 s2 Hp Hq Heq | | | |]; subst.
      apply (re.MCat p q (String c s1) s2); [now apply IHp | assumption]. }
    destruct (re.nullable p) eqn:Hn; [| now apply Hcat].
    inversion H; subst; [now apply Hcat |].
    apply (re.MCat p q EmptyString (String c s)).
    + now apply re_nullable_spec.
    + now apply IHq.
  - inversion H; subst; [apply re.MAltL | apply re.MAltR]; auto.
  - inversion H as [| | | ? ? s1 s2 Hp Hq Heq | | | |]; subst.
    apply (re.MStarCons p (String c s1) s2); [now apply IHp | assumption].
Qed.

Lemma append_nil_l (s : string) : String.append EmptyString s = s.
Proof. reflexivity. Qed.

Lemma append_cons_l (c : ascii) (s t : string) :
  String.append (String c s) t = String c (String.append s t).
Proof. reflexivity. Qed.

Lemma re_deriv_complete (c : ascii) (p : re.Pattern) (s : string) :
  re.Matches p (String c s) -> re.Matches (re.deriv c p) s.
Proof.
  intros H. remember (String c s) as s0 eqn:Hs0. revert c s Hs0.
  induction H as [| c' | c' Hc' | p q s1 s2 Hp IHp Hq IHq | p q s0 Hp IHp
                 | p q s0 Hq IHq | p | p s1 s2 Hp IHp Hs IHs];
    intros c s Hs0; simpl.
  - discriminate.
  - injection Hs0 as -> <-. rewrite Ascii.eqb_refl. constructor.
  - injection Hs0 as -> <-. rewrite Hc'. constructor.
  - destruct s1 as [| c1 s1];
      [rewrite append_nil_l in Hs0 | rewrite append_cons_l in Hs0].
    + subst s2. apply re_nullable_spec in Hp. rewrite Hp.
      apply re.MAltR. now apply IHq.
    + injection Hs0 as -> <-.
      assert (Hcat : re.Matches (re.Cat (re.deriv c p) q) (String.append s1 s2)).
      { apply re.MCat; [now apply IHp | assumption]. }
      destruct (re.nullable p); [now apply re.MAltL | assumption].
  - apply re.MAltL. now apply IHp.
  - apply re.MAltR. now apply IHq.
  - discriminate.
  - destruct s1 as [| c1 s1];
      [rewrite append_nil_l in Hs0 | rewrite append_cons_l in Hs0].
    + now apply IHs.
    + injection Hs0 as -> <-.
      apply (re.MCat (re.deriv c p) (re.Star p) s1 s2);
        [now apply IHp | assumption].
Qed.

Lemma re_is_fullmatch_spec (p : re.Pattern) (s : string) :
  re.is_fullmatch p s = true <-> re.Matches p s.
Proof.
  revert p. induction s as [| c s IH]; intros p; simpl.
  - apply re_nullable_spec.
  - rewrite IH. split; [apply re_deriv_sound | apply re_deriv_complete].
Qed.

(** [match] succeeds exactly when the pattern matches a prefix of the
    string. *)
Lemma re_is_match_spec (p : re.Pattern) (s : string) :
  re.is_match p s = true <->
  exists s1 s2, s = String.append s1 s2 /\ re.Matches p s1.
Proof.
  revert p. induction s as [| c s IH]; intros p; simpl.
  - rewrite orb_false_r, re_nullable_spec. split.
    + intros H. now exists EmptyString, EmptyString.
    + intros (s1 & s2 & Heq & H). destruct s1; [assumption | discriminate].
  - rewrite orb_true_iff, IH, re_nullable_spec. split.
    + intros [H | (s1 & s2 & -> & H)].
      * now exists EmptyString, (String c s).
      * exists (String c s1), s2. split; [reflexivity |].
        now apply re_deriv_sound.
    + intros (s1 & s2 & Heq & H). destruct s1 as [| c1 s1]; [now left |].
      rewrite append_cons_l in Heq. injection Heq as <- ->. right.
      exists s1, s2. split; [reflexivity |]. now apply re_deriv_complete.
Qed.

(** ** Matchers *)

Lemma call_normalize_single_value_result provider context norm_args :
  result (call_normalize_single_value provider context norm_args) =
  normalize_single_value provider context norm_args.
Proof. reflexivity. Qed.

(** C5. [RegexMatcher.should_include]: with [include=True] the answer is
    false exactly when the value resolves to a string of which the pattern
    matches a prefix; with [include=False] the answer is true exactly
    then.  The match is from the start and need not reach the end of the
    value: there is a matcher that reports a match on a value its
    pattern does not match as a whole. *)
Theorem regex_matcher_should_include_matches_from_start
    (self : RegexMatcher.t) (context : ProviderContext) :
  let matches_at_start :=
    exists s, normalize_single_value (RegexMatcher.value_provider self) context
                (RegexMatcher.normalization self) = Returns (VStr s) /\
              exists s1 s2, s = String.append s1 s2 /\
                            re.Matches (RegexMatcher.regex self) s1 in
  (RegexMatcher.include self = true ->
   (result (RegexMatcher.should_include self context) = Returns false <->
    matches_at_start)) /\
  (RegexMatcher.include self = false ->
   (result (RegexMatcher.should_include self context) = Returns true <->
    matches_at_start)) /\
  (exists (m : RegexMatcher.t) (s : string),
     RegexMatcher.include m = true /\
     normalize_single_value (RegexMatcher.value_provider m) context
       (RegexMatcher.normalization m) = Returns (VStr s) /\
     result (RegexMatcher.should_include m context) = Returns false /\
     ~ re.Matches (RegexMatcher.regex m) s).
Proof.
  intros matches_at_start.
  assert (Hres : forall b,
    result (RegexMatcher.should_include self context) = Returns b <->
    exists s, normalize_single_value (RegexMatcher.value_provider self) context
                (RegexMatcher.normalization self) = Returns (VStr s) /\
              (if RegexMatcher.include self
               then negb (re.is_match (RegexMatcher.regex self) s)
               else re.is_match (RegexMatcher.regex self) s) = b).
  { intros b. unfold RegexMatcher.should_include.
    rewrite result_bind, call_normalize_single_value_result.
    destruct (normalize_single_value _ _ _) as [[| x | z | s] | e];
      try (split; [discriminate | intros (s' & Hs' & _); discriminate]).
    rewrite result_bind. simpl. split.
    - intros [= <-]. now exists s.
    - intros (s' & [= <-] & <-). reflexivity. }
  split; [| split].
  - intros Hinc. rewrite Hres, Hinc. unfold matches_at_start.
    split; intros (s & Hs & H); exists s; (split; [exact Hs |]).
    + apply re_is_match_spec. now apply negb_false_iff.
    + apply negb_false_iff. now apply re_is_match_spec.
  - intros Hinc. rewrite Hres, Hinc. unfold matches_at_start.
    split; intros (s & Hs & H); exists s; (split; [exact Hs |]);
      now apply re_is_match_spec.
  - exists (RegexMatcher.mk (constant_provider (VStr "ab"))
              (re.Chr "a"%char) true ∅), "ab"%string.
    repeat split.
    intros H. apply re_is_fullmatch_spec in H. discriminate.
Qed.

Lemma regex_matcher_should_include_matches_from_start_witness :
  let context := MkProviderContext (Data (PDict [])) None in
  result (RegexMatcher.should_include
            (RegexMatcher.mk (constant_provider (VStr "abc"))
               (re.Cat (re.Chr "a"%char) (re.Star re.Dot)) true ∅) context)
    = Returns false /\
  result (RegexMatcher.should_include
            (RegexMatcher.mk (constant_provider (VStr "abc"))
               (re.Cat (re.Chr "a"%char) (re.Chr "b"%char)) false ∅) context)
    = Returns true.
Proof.
  intros context. split.
  - destruct (regex_matcher_should_include_matches_from_start
                (RegexMatcher.mk (constant_provider (VStr "abc"))
                   (re.Cat (re.Chr "a"%char) (re.Star re.Dot)) true ∅) context)
      as (Hinc & _ & _).
    apply (Hinc eq_refl). exists "abc"%string. split; [reflexivity |].
    exists "abc"%string, ""%string. split; [reflexivity |].
    apply re_is_fullmatch_spec. reflexivity.
  - destruct (regex_matcher_should_include_matches_from_start
                (RegexMatcher.mk (constant_provider (VStr "abc"))
                   (re.Cat (re.Chr "a"%char) (re.Chr "b"%char)) false ∅) context)
      as (_ & Hexc & _).
    apply (Hexc eq_refl). exists "abc"%string. split; [reflexivity |].
    exists "ab"%string, "c"%string. split; [reflexivity |].
    apply re_is_fullmatch_spec. reflexivity.
Defined.

Lemma possibility_equals_result context norm_args actual_value p b :
  result (possibility_equals context norm_args actual_value p) = Returns b <->
  exists v, normalize_single_value p context norm_args = Returns v /\
            py_eq v actual_value = b.
Proof.
  unfold possibility_equals.
  rewrite result_bind, call_normalize_single_value_result.
  destruct (normalize_single_value p context norm_args) as [v | e]; simpl.
  - split; [intros [= <-]; now exists v | intros (v' & [= <-] & <-); reflexivity].
  - split; [discriminate | intros (v' & Hv' & _); discriminate].
Qed.

Lemma possibility_equals_calls context norm_args actual_value p :
  calls (possibility_equals context norm_args actual_value p) =
  [NormalizeSingleValue p context norm_args].
Proof.
  unfold possibility_equals. rewrite calls_bind. simpl.
  now destruct (normalize_single_value p context norm_args).
Qed.

(** [any] asks a prefix of the possibilities, each once, in order. *)
Lemma py_any_possibilities_calls context norm_args actual_value
    (ps : list ValueProvider) :
  exists n : nat,
    calls (py_any (possibility_equals context norm_args actual_value) ps) =
    map (fun p => NormalizeSingleValue p context norm_args) (take n ps).
Proof.
  induction ps as [| p ps [n IH]]; simpl.
  - now exists 0%nat.
  - rewrite calls_bind, possibility_equals_calls.
    destruct (result (possibility_equals context norm_args actual_value p))
      as [[|] |].
    + now exists 1%nat.
    + exists (S n). simpl. now rewrite IH.
    + now exists 1%nat.
Qed.

(** C6. [ValueMatcher.does_match] asks the subject's provider once, first,
    and then possibility providers from the left, each with the matcher's
    own normalization arguments; it answers true exactly when it reaches a
    possibility whose normalized value equals the normalized subject, which,
    when every possibility resolves, is to say that at least one
    possibility's normalized value equals it. *)
Theorem value_matcher_does_match_iff_some_possibility_equal
    (self : ValueMatcher.t) (context : ProviderContext) :
  let norm_args := ValueMatcher.normalization self in
  let subject := ValueMatcher.value_provider self in
  let resolves_equal (a : Value) (p : ValueProvider) :=
    exists v, normalize_single_value p context norm_args = Returns v /\
              py_eq v a = true in
  let resolves_different (a : Value) (p : ValueProvider) :=
    exists v, normalize_single_value p context norm_args = Returns v /\
              py_eq v a = false in
  (exists n : nat,
     calls (ValueMatcher.does_match self context) =
     NormalizeSingleValue subject context norm_args ::
     map (fun p => NormalizeSingleValue p context norm_args)
       (take n (ValueMatcher.possibilities self))) /\
  (forall e, normalize_single_value subject context norm_args = Raises e ->
     ValueMatcher.does_match self context =
     ([NormalizeSingleValue subject context norm_args], Raises e)) /\
  (forall a, normalize_single_value subject context norm_args = Returns a ->
     (result (ValueMatcher.does_match self context) = Returns true <->
      exists pre p post,
        ValueMatcher.possibilities self = pre ++ p :: post /\
        Forall (resolves_different a) pre /\ resolves_equal a p) /\
     (result (ValueMatcher.does_match self context) = Returns false <->
      Forall (resolves_different a) (ValueMatcher.possibilities self)) /\
     (Forall (fun p => exists v,
                normalize_single_value p context norm_args = Returns v)
        (ValueMatcher.possibilities self) ->
      (result (ValueMatcher.does_match self context) = Returns true <->
       Exists (resolves_equal a) (ValueMatcher.possibilities self)))).
Proof.
  intros norm_args subject resolves_equal resolves_different.
  assert (Hdef : ValueMatcher.does_match self context =
    bind (call_normalize_single_value subject context norm_args)
      (fun actual_value =>
         py_any (possibility_equals context norm_args actual_value)
           (ValueMatcher.possibilities self))) by reflexivity.
  split; [| split].
  - rewrite Hdef, calls_bind. simpl calls at 1. simpl result.
    destruct (normalize_single_value subject context norm_args) as [a | e].
    + destruct (py_any_possibilities_calls context norm_args a
                  (ValueMatcher.possibilities self)) as [n Hn].
      exists n. now rewrite Hn.
    + now exists 0%nat.
  - intros e He. rewrite Hdef. unfold call_normalize_single_value, bind.
    now rewrite He.
  - intros a Ha.
    assert (Hres : result (ValueMatcher.does_match self context) =
                   result (py_any (possibility_equals context norm_args a)
                             (ValueMatcher.possibilities self))).
    { rewrite Hdef, result_bind, call_normalize_single_value_result.
      now rewrite Ha. }
    assert (Heq : forall b p,
      result (possibility_equals context norm_args a p) = Returns b <->
      exists v, normalize_single_value p context norm_args = Returns v /\
                py_eq v a = b) by (intros; apply possibility_equals_result).
    rewrite Hres. split; [| split].
    + rewrite py_any_true. split.
      * intros (pre & p & post & Hps & Hpre & Hp).
        exists pre, p, post. split; [exact Hps |]. split.
        -- eapply Forall_impl; [exact Hpre |]. intros q Hq. now apply Heq.
        -- now apply Heq.
      * intros (pre & p & post & Hps & Hpre & Hp).
        exists pre, p, post. split; [exact Hps |]. split.
        -- eapply Forall_impl; [exact Hpre |]. intros q Hq. now apply Heq.
        -- now apply Heq.
    + rewrite py_any_false. split; intros H;
        (eapply Forall_impl; [exact H |]); intros q Hq; now apply Heq.
    + intros Htot. rewrite py_any_true_total.
      * split; intros H; (eapply Exists_impl; [exact H |]);
          intros q Hq; now apply Heq.
      * eapply Forall_impl; [exact Htot |]. intros q [v Hv].
        exists (py_eq v a). apply Heq. now exists v.
Qed.

Lemma value_matcher_does_match_iff_some_possibility_equal_witness :
  let self := matcher_of (VStr "a") [VStr "b"; VStr "a"; VStr "c"] in
  let context := MkProviderContext (Data (PDict [])) None in
  result (ValueMatcher.does_match self context) = Returns true.
Proof.
  intros self context.
  destruct (value_matcher_does_match_iff_some_possibility_equal self context)
    as (_ & _ & Hres).
  destruct (Hres (VStr "a") eq_refl) as (_ & _ & Hany).
  apply Hany.
  - repeat constructor; eexists; reflexivity.
  - apply Exists_cons_tl, Exists_cons_hd. exists (VStr "a"). now split.
Defined.

(** ** Dictionaries *)

Lemma dict_lookup_Some {V} (k : Value) (d : pydict V) (v : V) :
  dict_lookup k d = Some v ->
  exists k', (k', v) ∈ dict_items d /\ py_eq k' k = true.
Proof.
  induction d as [| [k0 v0] d IH]; simpl; [discriminate |].
  destruct (py_eq k0 k) eqn:Hk.
  - intros [= ->]. exists k0. split; [left | assumption].
  - intros H. destruct (IH H) as (k' & Hin & Hk'). exists k'.
    split; [now right | assumption].
Qed.

Lemma dict_contains_keys {V} (k : Value) (d : pydict V) :
  dict_contains k d = true <->
  exists k', k' ∈ dict_keys d /\ py_eq k' k = true.
Proof.
  unfold dict_contains, dict_keys.
  induction d as [| [k0 v0] d IH]; simpl.
  - split; [discriminate | intros (k' & Hin & _); inversion Hin].
  - destruct (py_eq k0 k) eqn:Hk.
    + split; [| reflexivity]. intros _. exists k0. split; [left | assumption].
    + rewrite IH. split.
      * intros (k' & Hin & Hk'). exists k'. split; [now right | assumption].
      * intros (k' & Hin & Hk'). exists k'. split; [| assumption].
        inversion Hin; subst; [congruence | assumption].
Qed.

Lemma dict_contains_getitem {V} (k : Value) (d : pydict V) :
  dict_contains k d = true ->
  exists v, dict_lookup k d = Some v /\ dict_getitem d k = Returns v.
Proof.
  unfold dict_contains, dict_getitem.
  destruct (dict_lookup k d) as [v |]; [| discriminate].
  intros _. now exists v.
Qed.

Lemma dict_lookup_map_values {V W} (g : V -> W) (k : Value) (d : pydict V) :
  dict_lookup k (map (fun kv => (fst kv, g (snd kv))) d) =
  option_map g (dict_lookup k d).
Proof.
  induction d as [| [k0 v0] d IH]; simpl; [reflexivity |].
  now destruct (py_eq k0 k).
Qed.

(** ** The switch *)

Lemma bind_ext {E A B} (m : M E A) (k k' : A -> M E B) :
  (forall a, k a = k' a) -> bind m k = bind m k'.
Proof.
  intros H. destruct m as [t [a | e]]; simpl; [| reflexivity].
  now rewrite H.
Qed.

Lemma switch_interpret_map_children {I J O} (g : I -> J)
    (interpret_child : J -> InterpreterContext -> Eff O)
    (self : SwitchInterpretation.t I) (context : InterpreterContext) :
  SwitchInterpretation.interpret interpret_child
    (SwitchInterpretation.map_children g self) context =
  SwitchInterpretation.interpret (fun child => interpret_child (g child))
    self context.
Proof.
  destruct self as [sw cases dflt norm].
  unfold SwitchInterpretation.interpret, SwitchInterpretation.map_children.
  cbn [SwitchInterpretation.switch_on SwitchInterpretation.interpretations
       SwitchInterpretation.default SwitchInterpretation.normalization].
  apply bind_ext. intros v.
  unfold dict_contains, dict_getitem.
  rewrite dict_lookup_map_values.
  destruct (dict_lookup v cases) as [child |]; simpl; [reflexivity |].
  now destruct dflt.
Qed.

(** [interpret] on a switch is [SwitchInterpretation.interpret] with the
    children interpreted by [interpret]. *)
Lemma interpret_Switch {O} (self : SwitchInterpretation.t (Interpretation O))
    (context : InterpreterContext) :
  interpret (Switch self) context =
  SwitchInterpretation.interpret interpret self context.
Proof.
  simpl. now rewrite switch_interpret_map_children.
Qed.

(** C1. [SwitchInterpretation.interpret] first asks [switch_on] for the
    normalized value.  If that value is a key of the cases, the call is
    the call of [interpret] on the child stored under that key, with its
    result; otherwise, with a default, it is the call of [interpret] on
    the default; otherwise it raises [UnhandledBranchError] with the value.
    (A failure to resolve the value is passed on.) *)
Theorem switch_interpret_dispatches {O}
    (self : SwitchInterpretation.t (Interpretation O))
    (context : InterpreterContext) :
  let cases := SwitchInterpretation.interpretations self in
  let resolved :=
    normalize_single_value (SwitchInterpretation.switch_on self) context
      (SwitchInterpretation.normalization self) in
  let asked :=
    NormalizeSingleValue (SwitchInterpretation.switch_on self) context
      (SwitchInterpretation.normalization self) in
  let delegated_to (child : Interpretation O) :=
    (asked :: calls (interpret child context),
     result (interpret child context)) in
  (forall e, resolved = Raises e ->
     interpret (Switch self) context = ([asked], Raises e)) /\
  (forall v, resolved = Returns v ->
     (dict_contains v cases = true <->
      exists k, k ∈ dict_keys cases /\ py_eq k v = true) /\
     (dict_contains v cases = true ->
      exists k child,
        (k, child) ∈ dict_items cases /\ py_eq k v = true /\
        dict_getitem cases v = Returns child /\
        interpret (Switch self) context = delegated_to child) /\
     (dict_contains v cases = false ->
      forall d, SwitchInterpretation.default self = Some d ->
        interpret (Switch self) context = delegated_to d) /\
     (dict_contains v cases = false ->
      SwitchInterpretation.default self = None ->
      interpret (Switch self) context =
      ([asked], Raises (UnhandledBranchError v)))).
Proof.
  intros cases resolved asked delegated_to. subst cases resolved.
  split.
  - intros e He. rewrite interpret_Switch.
    unfold SwitchInterpretation.interpret, call_normalize_single_value, bind.
    now rewrite He.
  - intros v Hv. split; [apply dict_contains_keys |].
    assert (Hbody : forall todo : Eff O,
      (if negb (dict_contains v (SwitchInterpretation.interpretations self))
       then match SwitchInterpretation.default self with
            | Some d => interpret d context
            | None => raise (UnhandledBranchError v)
            end
       else bind (lift (dict_getitem (SwitchInterpretation.interpretations self) v))
              (fun child => interpret child context)) = todo ->
      interpret (Switch self) context = (asked :: calls todo, result todo)).
    { intros todo <-. rewrite interpret_Switch.
      unfold SwitchInterpretation.interpret, call_normalize_single_value.
      unfold bind at 1. rewrite Hv.
      now destruct (if negb _ then _ else _). }
    split; [| split].
    + intros Hin.
      destruct (dict_contains_getitem v _ Hin) as (child & Hl & Hg).
      destruct (dict_lookup_Some v _ child Hl) as (k & Hk & Heq).
      exists k, child. repeat split; try assumption.
      apply Hbody. rewrite Hin, Hg. simpl negb. cbv iota.
      unfold lift, bind. now destruct (interpret child context).
    + intros Hout d Hd. apply Hbody. now rewrite Hout, Hd.
    + intros Hout Hd. apply (Hbody (raise (UnhandledBranchError v))).
      now rewrite Hout, Hd.
Qed.

Lemma switch_interpret_dispatches_witness :
  result (interpret (Switch (example_switch (Some (answer "D"))))
            (record_of_type "a")) = Returns "X"%string /\
  result (interpret (Switch (example_switch (Some (answer "D"))))
            (record_of_type "c")) = Returns "D"%string /\
  result (interpret (Switch (example_switch None)) (record_of_type "c"))
    = Raises (UnhandledBranchError (VStr "c")).
Proof.
  split; [| split].
  - destruct (switch_interpret_dispatches
                (example_switch (Some (answer "D"))) (record_of_type "a"))
      as [_ H].
    destruct (H (VStr "a") eq_refl) as (_ & Hcase & _ & _).
    destruct (Hcase eq_refl) as (k & child & _ & _ & Hget & ->).
    injection Hget as <-. reflexivity.
  - destruct (switch_interpret_dispatches
                (example_switch (Some (answer "D"))) (record_of_type "c"))
      as [_ H].
    destruct (H (VStr "c") eq_refl) as (_ & _ & Hdefault & _).
    now rewrite (Hdefault eq_refl (answer "D") eq_refl).
  - destruct (switch_interpret_dispatches
                (example_switch None) (record_of_type "c")) as [_ H].
    destruct (H (VStr "c") eq_refl) as (_ & _ & _ & Hnone).
    now rewrite (Hnone eq_refl eq_refl).
Defined.

(** ** Building a switch and enumerating its components *)

Lemma py_eq_sym (a b : Value) : py_eq a b = py_eq b a.
Proof.
  destruct a as [| x | x | x], b as [| y | y | y]; simpl; try reflexivity;
    apply bool_decide_ext; split; congruence.
Qed.

Lemma dict_contains_false {V} (k : Value) (d : pydict V) :
  dict_contains k d = false <-> Forall (fun kv => py_eq (fst kv) k = false) d.
Proof.
  unfold dict_contains. induction d as [| [k0 v0] d IH]; simpl.
  - split; [constructor | reflexivity].
  - destruct (py_eq k0 k) eqn:Hk.
    + split; [discriminate |]. inversion 1; simpl in *; congruence.
    + rewrite IH. split; [now constructor | now inversion 1].
Qed.

Lemma dict_setitem_fresh {V} (k : Value) (v : V) (d : pydict V) :
  dict_contains k d = false -> dict_setitem k v d = d ++ [(k, v)].
Proof.
  rewrite dict_contains_false.
  induction 1 as [| [k0 v0] d Hk _ IH]; simpl in *; [reflexivity |].
  now rewrite Hk, IH.
Qed.

Lemma compile_cases_spec {I}
    (from_file_arguments : list (string * PyObj) -> outcome I)
    (items : list (Value * PyObj)) :
  forall (acc d : pydict I),
    dict_wf items = true ->
    Forall (fun kv => dict_contains (fst kv) acc = false) items ->
    SwitchInterpretation.compile_cases from_file_arguments items acc = Returns d ->
    exists compiled, d = acc ++ compiled /\
      Forall2 (compiled_from from_file_arguments) items compiled.
Proof.
  induction items as [| [k cfg] items IH]; simpl; intros acc d Hwf Hfresh Hd.
  - injection Hd as <-. exists []. split; [now rewrite app_nil_r | constructor].
  - apply andb_true_iff in Hwf as [Hk Hwf]. apply negb_true_iff in Hk.
    inversion Hfresh as [| ? ? Hkacc Hfresh']; subst. simpl in Hkacc.
    destruct (as_kwargs cfg) as [kwargs |] eqn:Hkw; [| discriminate].
    destruct (from_file_arguments kwargs) as [child |] eqn:Hchild;
      [| discriminate].
    rewrite (dict_setitem_fresh _ _ _ Hkacc) in Hd.
    apply IH in Hd as (compiled & -> & Hall); [| assumption |].
    + exists ((k, child) :: compiled). split; [now rewrite <- app_assoc |].
      constructor; [| assumption]. split; [reflexivity |]. now exists kwargs.
    + apply dict_contains_false in Hk.
      apply Forall_forall. intros [k2 cfg2] Hin. simpl.
      apply dict_contains_false. apply Forall_app. split.
      * apply dict_contains_false.
        rewrite Forall_forall in Hfresh'. apply (Hfresh' _ Hin).
      * constructor; [| constructor]. simpl.
        rewrite Forall_forall in Hk. rewrite py_eq_sym. apply (Hk _ Hin).
Qed.

Lemma switch_map_children_components {I J} (g : I -> J)
    (self : SwitchInterpretation.t I) :
  SwitchInterpretation.all_subordinate_components
    (SwitchInterpretation.map_children g self) =
  map g (SwitchInterpretation.all_subordinate_components self).
Proof.
  destruct self as [sw cases dflt norm].
  unfold SwitchInterpretation.all_subordinate_components,
    SwitchInterpretation.map_children, dict_values. simpl.
  rewrite map_app. f_equal.
  - rewrite !map_map. reflexivity.
  - now destruct dflt.
Qed.

Lemma lookup_map {A B} (f : A -> B) (l : list A) (n : nat) :
  map f l !! n = option_map f (l !! n).
Proof.
  revert n. induction l as [| x l IH]; intros [| n]; simpl; auto.
Qed.

(** C7. [all_subordinate_components] yields the child stored under every
    case key, one per key and in the order of the mapping, and then the
    default when there is one.  For a switch built by [__init__] these are
    the children compiled from the cases and from the default.  The
    children are only handed on: whatever is put in their place by [g], the
    enumeration is the same list with [g] applied, so that no behaviour of
    a child ([interpret] in particular) takes part in it. *)
Theorem all_subordinate_components_yields_cases_then_default {I}
    (self : SwitchInterpretation.t I) :
  let cases := SwitchInterpretation.interpretations self in
  let components := SwitchInterpretation.all_subordinate_components self in
  components =
    map snd (dict_items cases) ++
    match SwitchInterpretation.default self with Some d => [d] | None => [] end /\
  length components =
    (length (dict_keys cases) +
     match SwitchInterpretation.default self with Some _ => 1 | None => 0 end)%nat /\
  (forall n k child, dict_items cases !! n = Some (k, child) ->
     dict_keys cases !! n = Some k /\ components !! n = Some child) /\
  (forall d, SwitchInterpretation.default self = Some d ->
     components !! length (dict_keys cases) = Some d) /\
  (forall J (g : I -> J),
     SwitchInterpretation.all_subordinate_components
       (SwitchInterpretation.map_children g self) = map g components) /\
  (forall garuntee_value_provider from_file_arguments switch_on config default
          normalization,
     dict_wf config = true ->
     SwitchInterpretation.__init__ garuntee_value_provider from_file_arguments
       switch_on config default normalization = Returns self ->
     Forall2 (compiled_from from_file_arguments) (dict_items config)
       (dict_items cases) /\
     match SwitchInterpretation.default self with
     | Some d => exists cfg kwargs,
         default = Some cfg /\ py_truthy cfg = true /\
         as_kwargs cfg = Returns kwargs /\
         from_file_arguments kwargs = Returns d
     | None => default = None \/ exists cfg,
         default = Some cfg /\ py_truthy cfg = false
     end).
Proof.
  intros cases components.
  assert (Hdef : components =
    map snd cases ++
    match SwitchInterpretation.default self with Some d => [d] | None => [] end)
    by reflexivity.
  split; [exact Hdef |]. split; [| split; [| split; [| split]]].
  - rewrite Hdef, length_app. unfold dict_keys. rewrite !length_map.
    now destruct (SwitchInterpretation.default self).
  - intros n k child Hn. unfold dict_keys, dict_items in *. split.
    + now rewrite lookup_map, Hn.
    + rewrite Hdef, lookup_app_l.
      * now rewrite lookup_map, Hn.
      * rewrite length_map. now apply lookup_lt_Some in Hn.
  - intros d Hd. rewrite Hdef, Hd. unfold dict_keys.
    replace (length (map fst cases)) with (length (map snd cases))
      by now rewrite !length_map.
    apply list_lookup_middle. reflexivity.
  - intros J g. apply switch_map_children_components.
  - intros garuntee from_file_arguments switch_on config default normalization
      Hwf Hinit.
    unfold SwitchInterpretation.__init__ in Hinit.
    destruct (SwitchInterpretation.compile_cases from_file_arguments
                (dict_items config) []) as [compiled |] eqn:Hcases;
      [| discriminate].
    destruct (SwitchInterpretation.compile_default from_file_arguments default)
      as [compiled_default |] eqn:Hdefault; [| discriminate].
    injection Hinit as <-. subst cases. simpl. split.
    + apply compile_cases_spec in Hcases as (l & -> & Hall);
        [exact Hall | exact Hwf |].
      apply Forall_forall. reflexivity.
    + unfold SwitchInterpretation.compile_default in Hdefault.
      destruct default as [cfg |].
      * destruct (py_truthy cfg) eqn:Htruthy.
        -- destruct (as_kwargs cfg) as [kwargs |] eqn:Hkw; [| discriminate].
           destruct (from_file_arguments kwargs) as [d |] eqn:Hd;
             [| discriminate].
           injection Hdefault as <-. now exists cfg, kwargs.
        -- injection Hdefault as <-. right. now exists cfg.
      * injection Hdefault as <-. now left.
Qed.

Lemma all_subordinate_components_yields_cases_then_default_witness :
  exists self,
    SwitchInterpretation.__init__ example_garuntee example_from_file_arguments
      (Provider (field_provider "type"))
      [(VStr "a", example_config "X"); (VStr "b", example_config "Y")]
      (Some (example_config "D")) None = Returns self /\
    SwitchInterpretation.all_subordinate_components self
      = [answer "X"; answer "Y"; answer "D"] /\
    SwitchInterpretation.all_subordinate_components self !! 2%nat
      = Some (answer "D") /\
    Forall2 (compiled_from example_from_file_arguments)
      [(VStr "a", example_config "X"); (VStr "b", example_config "Y")]
      (dict_items (SwitchInterpretation.interpretations self)).
Proof.
  exists (example_switch (Some (answer "D"))).
  pose proof (all_subordinate_components_yields_cases_then_default
                (example_switch (Some (answer "D"))))
    as (Hall & _ & _ & Hdefault & _ & Hinit).
  split; [reflexivity |]. split; [exact Hall |].
  split; [exact (Hdefault _ eq_refl) |].
  exact (proj1 (Hinit example_garuntee example_from_file_arguments
                  (Provider (field_provider "type"))
                  [(VStr "a", example_config "X"); (VStr "b", example_config "Y")]
                  (Some (example_config "D")) None eq_refl eq_refl)).
Defined.

(** ** The schema expansion coordinator *)

Section CoordinatorFacts.
Import SchemaExpansionCoordinator.
Context {Schema : Type}.
Variable empty_schema : Schema.
Variable merge : Schema -> Schema -> Schema.
Variable contribution : NodeId -> Schema.
Variable heap : gmap NodeId Node.

Local Open Scope nat_scope.

#[local] Abbreviation expand := (expand merge contribution heap).
#[local] Abbreviation visit := (visit merge contribution).
#[local] Abbreviation state := (@state Schema).
#[local] Abbreviation consistent := (consistent empty_schema merge contribution).
#[local] Abbreviation closed_except := (closed_except heap).
#[local] Abbreviation expand_post :=
  (expand_post empty_schema merge contribution heap).

Lemma universe_closed (root n c : NodeId) :
  c ∈ children heap n -> c ∈ universe heap root.
Proof.
  unfold children, universe. intros Hc.
  destruct (heap !! n) as [node |] eqn:Hn; [| inversion Hc].
  apply elem_of_union_r, elem_of_union_list.
  exists (list_to_set (all_subordinate_components node)). split.
  - apply list_elem_of_fmap. exists (n, node). split; [reflexivity |].
    now apply elem_of_map_to_list.
  - now apply elem_of_list_to_set.
Qed.

(** *** Termination *)

Lemma fold_expand_total (U : gset NodeId) (fuel : nat) :
  (forall n (st : state), n ∈ U -> size (U ∖ visited st) < fuel ->
     exists st', expand fuel n st = Some st' /\ visited st ⊆ visited st') ->
  forall (l : list NodeId) (st : state),
    (forall c, c ∈ l -> c ∈ U) -> size (U ∖ visited st) < fuel ->
    exists st', fold_option (expand fuel) l st = Some st' /\
                visited st ⊆ visited st'.
Proof.
  intros Hone. induction l as [| c l IH]; intros st Hl Hsize; simpl.
  - now exists st.
  - destruct (Hone c st) as (st1 & -> & Hsub1);
      [apply Hl; left | exact Hsize |].
    destruct (IH st1) as (st2 & -> & Hsub2).
    + intros c' Hc'. apply Hl. now right.
    + eapply Nat.le_lt_trans; [| exact Hsize].
      apply subseteq_size. set_solver.
    + exists st2. split; [reflexivity | set_solver].
Qed.

Lemma expand_total (U : gset NodeId) :
  (forall n c, c ∈ children heap n -> c ∈ U) ->
  forall (fuel : nat) (n : NodeId) (st : state),
    n ∈ U -> size (U ∖ visited st) < fuel ->
    exists st', expand fuel n st = Some st' /\ visited st ⊆ visited st'.
Proof.
  intros Hclosed. induction fuel as [| fuel IH]; intros n st Hn Hsize; [lia |].
  simpl. destruct (decide (n ∈ visited st)) as [Hv | Hv].
  - now exists st.
  - destruct (fold_expand_total U fuel IH (children heap n) (visit n st))
      as (st' & Hst' & Hsub).
    + intros c Hc. now apply (Hclosed n).
    + assert (size (U ∖ visited (visit n st)) < size (U ∖ visited st)); [| lia].
      apply subset_size. simpl. set_solver.
    + exists st'. split; [exact Hst' |]. simpl in Hsub. set_solver.
Qed.

(** *** What the walk visits *)

Lemma initial_consistent : consistent (initial empty_schema).
Proof.
  repeat split; simpl; try set_solver. constructor.
Qed.

Lemma visit_consistent (n : NodeId) (st : state) :
  consistent st -> n ∉ visited st -> consistent (visit n st).
Proof.
  intros (Hin & Hnodup & Hschema) Hn. split; [| split]; simpl.
  - intros n'. rewrite elem_of_app, list_elem_of_singleton, elem_of_union,
      elem_of_singleton, Hin. tauto.
  - apply NoDup_app. repeat split; [assumption | | apply NoDup_singleton].
    intros x Hx Hx'. apply list_elem_of_singleton in Hx' as ->.
    now apply Hn, Hin.
  - rewrite map_app, fold_left_app, <- Hschema. reflexivity.
Qed.

Lemma fold_expand_spec (fuel : nat) :
  (forall n st st' open, expand fuel n st = Some st' ->
     consistent st -> closed_except open st -> expand_post open [n] st st') ->
  forall l st st' open, fold_option (expand fuel) l st = Some st' ->
    consistent st -> closed_except open st -> expand_post open l st st'.
Proof.
  intros Hone. induction l as [| c l IH]; simpl; intros st st' open Hrun Hc Hcl.
  - injection Hrun as <-. split; [exact Hc |]. split; [set_solver |].
    split; [intros x Hx; inversion Hx |]. split; [exact Hcl | now left].
  - destruct (expand fuel c st) as [st1 |] eqn:Hc1; [| discriminate].
    destruct (Hone c st st1 open Hc1 Hc Hcl)
      as (Hc1' & Hsub1 & Hin1 & Hcl1 & Hreach1).
    destruct (IH st1 st' open Hrun Hc1' Hcl1)
      as (Hc' & Hsub & Hin & Hcl' & Hreach).
    split; [exact Hc' |]. split; [set_solver |]. split; [| split].
    + intros x Hx. apply elem_of_cons in Hx as [-> | Hx].
      * apply Hsub, Hin1. now left.
      * now apply Hin.
    + exact Hcl'.
    + intros m Hm. destruct (Hreach m Hm) as [Hm1 | (x & Hx & Hxm)].
      * destruct (Hreach1 m Hm1) as [Hm0 | (x & Hx & Hxm)]; [now left |].
        right. exists x. split; [| exact Hxm].
        apply list_elem_of_singleton in Hx as ->. now left.
      * right. exists x. split; [now right | exact Hxm].
Qed.

Lemma expand_spec (fuel : nat) :
  forall n st st' open, expand fuel n st = Some st' ->
    consistent st -> closed_except open st -> expand_post open [n] st st'.
Proof.
  induction fuel as [| fuel IH]; intros n st st' open Hrun Hc Hcl;
    [discriminate |].
  simpl in Hrun. destruct (decide (n ∈ visited st)) as [Hv | Hv].
  - injection Hrun as <-. split; [exact Hc |]. split; [set_solver |].
    split; [| split; [exact Hcl | now left]].
    intros c Hcn. now apply list_elem_of_singleton in Hcn as ->.
  - destruct (fold_expand_spec fuel IH (children heap n) (visit n st) st'
                ({[n]} ∪ open) Hrun) as (Hc' & Hsub & Hin & Hcl' & Hreach).
    + now apply visit_consistent.
    + intros v Hvv Hopen c Hcv. simpl in *.
      apply elem_of_union_r. apply (Hcl v); set_solver.
    + simpl in Hsub. split; [exact Hc' |]. split; [set_solver |].
      split; [| split].
      * intros c Hcn. apply list_elem_of_singleton in Hcn as ->. set_solver.
      * intros v Hvv Hopen c Hcv.
        destruct (decide (v = n)) as [-> | Hne]; [now apply Hin |].
        apply (Hcl' v); set_solver.
      * intros m Hm. destruct (Hreach m Hm) as [Hm1 | (c & Hcn & Hcm)].
        -- simpl in Hm1. apply elem_of_union in Hm1 as [Hm1 | Hm1];
             [| now left].
           apply elem_of_singleton in Hm1 as ->. right. exists n.
           split; [now left | constructor].
        -- right. exists n. split; [now left |].
           now apply (reachable_below heap n c m).
Qed.

(** The walk from a root ends, having visited exactly the nodes reachable
    from the root, each once. *)
Lemma expand_schema_spec (root : NodeId) :
  exists st,
    expand_schema empty_schema merge contribution heap root = Some st /\
    NoDup (visits st) /\
    (forall n, n ∈ visits st <-> reachable heap root n) /\
    schema st = fold_left merge (map contribution (visits st)) empty_schema.
Proof.
  unfold expand_schema.
  destruct (expand_total (universe heap root) (universe_closed root)
              (S (size (universe heap root))) root (initial empty_schema))
    as (st & Hrun & _).
  { unfold universe. set_solver. }
  { apply Nat.lt_succ_r, subseteq_size. set_solver. }
  exists st. split; [exact Hrun |].
  destruct (expand_spec _ _ _ _ ∅ Hrun initial_consistent)
    as ((Hin & Hnodup & Hschema) & _ & Hroot & Hcl & Hreach).
  { intros v Hv. simpl in Hv. set_solver. }
  split; [exact Hnodup |]. split; [| exact Hschema].
  intros n. rewrite Hin. split.
  - intros Hn. destruct (Hreach n Hn) as [H0 | (c & Hc & Hcn)].
    + simpl in H0. set_solver.
    + now apply list_elem_of_singleton in Hc as ->.
  - assert (Hall : forall a b, reachable heap a b ->
                               a ∈ visited st -> b ∈ visited st).
    { induction 1 as [| a c b Hca _ IH]; [auto |].
      intros Ha. apply IH, (Hcl a); [assumption | set_solver | assumption]. }
    intros Hn. apply (Hall root n Hn), Hroot. now left.
Qed.

End CoordinatorFacts.

(** *** The order of the walk *)

Lemma reachable_same_children (heap heap' : gmap nat SchemaExpansionCoordinator.Node) :
  (forall n c, c ∈ SchemaExpansionCoordinator.children heap' n <->
               c ∈ SchemaExpansionCoordinator.children heap n) ->
  forall a b, SchemaExpansionCoordinator.reachable heap a b ->
              SchemaExpansionCoordinator.reachable heap' a b.
Proof.
  intros Hsame a b. induction 1 as [| a c b Hca _ IH]; [constructor |].
  apply (SchemaExpansionCoordinator.reachable_below heap' a c b);
    [now apply Hsame | exact IH].
Qed.

Lemma fold_left_merge_permutation {Schema} (merge : Schema -> Schema -> Schema)
    (contribution : nat -> Schema) :
  (forall a b c, merge (merge a b) c = merge a (merge b c)) ->
  (forall a b, merge a b = merge b a) ->
  forall l l' : list nat, l ≡ₚ l' ->
    forall a, fold_left merge (map contribution l) a =
              fold_left merge (map contribution l') a.
Proof.
  intros Hassoc Hcomm l l'.
  induction 1 as [| x l l' _ IH | x y l | l l' l'' _ IH1 _ IH2];
    intros a; simpl.
  - reflexivity.
  - apply IH.
  - f_equal. rewrite !Hassoc. f_equal. apply Hcomm.
  - now rewrite IH1.
Qed.

(** C8. The walk of the coordinator from a root ends; it visits the nodes
    reachable from the root and no other, each exactly once however many
    parents hold it; and, the merge of contributions being associative and
    commutative, the aggregated schema does not depend on the order in
    which the nodes enumerate their components. *)
Theorem schema_expansion_visits_each_node_once {Schema}
    (empty_schema : Schema) (merge : Schema -> Schema -> Schema)
    (contribution : nat -> Schema)
    (heap : gmap nat SchemaExpansionCoordinator.Node) (root : nat) :
  (forall a b c, merge (merge a b) c = merge a (merge b c)) ->
  (forall a b, merge a b = merge b a) ->
  exists st,
    SchemaExpansionCoordinator.expand_schema empty_schema merge contribution
      heap root = Some st /\
    (forall n, SchemaExpansionCoordinator.reachable heap root n ->
       count_occ Nat.eq_dec (SchemaExpansionCoordinator.visits st) n = 1%nat) /\
    (forall n, ~ SchemaExpansionCoordinator.reachable heap root n ->
       count_occ Nat.eq_dec (SchemaExpansionCoordinator.visits st) n = 0%nat) /\
    (forall heap',
       (forall n, SchemaExpansionCoordinator.children heap' n ≡ₚ
                  SchemaExpansionCoordinator.children heap n) ->
       exists st',
         SchemaExpansionCoordinator.expand_schema empty_schema merge
           contribution heap' root = Some st' /\
         SchemaExpansionCoordinator.visits st' ≡ₚ
           SchemaExpansionCoordinator.visits st /\
         SchemaExpansionCoordinator.schema st' =
           SchemaExpansionCoordinator.schema st).
Proof.
  intros Hassoc Hcomm.
  destruct (expand_schema_spec empty_schema merge contribution heap root)
    as (st & Hrun & Hnodup & Hvisits & Hschema).
  exists st. split; [exact Hrun |]. split; [| split].
  - intros n Hn. apply NoDup_ListNoDup in Hnodup.
    apply (proj1 (NoDup_count_occ' Nat.eq_dec _) Hnodup).
    apply list_elem_of_In. now apply Hvisits.
  - intros n Hn. apply count_occ_not_In. intros Hin. apply Hn, Hvisits.
    now apply list_elem_of_In.
  - intros heap' Hperm.
    destruct (expand_schema_spec empty_schema merge contribution heap' root)
      as (st' & Hrun' & Hnodup' & Hvisits' & Hschema').
    exists st'. split; [exact Hrun' |].
    assert (Hp : SchemaExpansionCoordinator.visits st' ≡ₚ
                 SchemaExpansionCoordinator.visits st).
    { apply NoDup_Permutation; [assumption | assumption |].
      intros n. rewrite Hvisits, Hvisits'. split.
      - apply reachable_same_children. intros m c. now rewrite (Hperm m).
      - apply reachable_same_children. intros m c. now rewrite (Hperm m). }
    split; [exact Hp |].
    rewrite Hschema, Hschema'.
    now apply fold_left_merge_permutation.
Qed.

Lemma schema_expansion_visits_each_node_once_witness :
  exists st st',
    SchemaExpansionCoordinator.expand_schema (∅ : gset nat) union singleton
      diamond 0%nat = Some st /\
    count_occ Nat.eq_dec (SchemaExpansionCoordinator.visits st) 3%nat = 1%nat /\
    SchemaExpansionCoordinator.expand_schema (∅ : gset nat) union singleton
      diamond_reversed 0%nat = Some st' /\
    SchemaExpansionCoordinator.schema st' = SchemaExpansionCoordinator.schema st.
Proof.
  destruct (schema_expansion_visits_each_node_once (∅ : gset nat) union
              singleton diamond 0%nat)
    as (st & Hrun & Honce & _ & Horder).
  { intros a b c. symmetry. apply (assoc_L union). }
  { intros a b. apply (comm_L union). }
  destruct (Horder diamond_reversed) as (st' & Hrun' & _ & Hschema).
  { intros n. unfold SchemaExpansionCoordinator.children, diamond_reversed.
    destruct (decide (n = 0%nat)) as [-> | Hn].
    - rewrite lookup_insert_eq. unfold diamond. rewrite lookup_insert_eq.
      apply Permutation_swap.
    - now rewrite lookup_insert_ne. }
  exists st, st'. split; [exact Hrun |]. split; [| split; assumption].
  apply Honce.
  apply (SchemaExpansionCoordinator.reachable_below diamond 0 1 3)%nat.
  { unfold SchemaExpansionCoordinator.children, diamond.
    rewrite lookup_insert_eq. left. }
  apply (SchemaExpansionCoordinator.reachable_below diamond 1 3 3)%nat.
  { unfold SchemaExpansionCoordinator.children, diamond.
    rewrite lookup_insert_ne, lookup_insert_eq by lia. left. }
  constructor.
Defined.

(** The walk of the diamond, run. *)
Example diamond_walk :
  SchemaExpansionCoordinator.visits <$>
    SchemaExpansionCoordinator.expand_schema (∅ : gset nat) union singleton
      diamond 0%nat
  = Some [0; 1; 3; 2]%nat.
Proof. vm_compute. reflexivity. Qed.

(** ** The progress reporter *)

(** C9. A reporter made with all defaults has [None] for its callback.
    [report] then logs and fails on calling it, whatever the index and the
    record; and [execute_with_reporting] reports the first record, index 0
    being a multiple of the frequency, so that it fails there, after the one
    line logged, whatever the pipeline yields first and afterwards. *)
Theorem default_reporter_fails_on_first_record :
  let self := PipelineProgressReporter.defaults in
  let not_callable := TypeError "'NoneType' object is not callable" in
  PipelineProgressReporter.callback self = None /\
  (forall index record,
     PipelineProgressReporter.report self index record =
     ([PipelineProgressReporter.LoggerInfo "root" "Records Processed" index],
      Raises not_callable)) /\
  PipelineProgressReporter.py_mod 0
    (PipelineProgressReporter.reporting_frequency self) = Returns 0 /\
  (forall record rest,
     PipelineProgressReporter.execute_with_reporting self (record :: rest) =
     ([PipelineProgressReporter.LoggerInfo "root" "Records Processed" 0],
      Raises not_callable)).
Proof.
  intros self not_callable. repeat split.
Qed.

(** ** Pipeline definitions *)

Section PipelineDefinitionFacts.
Import PipelineDefinition.
Context {Path : Type}.
Variable Path_of_str : string -> Path.
Variable str : Path -> string.
Variable stem : Path -> string.

#[local] Abbreviation to_file_data := (to_file_data str stem).
#[local] Abbreviation from_file_data := (from_file_data Path_of_str stem).

(** What the mapping written by [to_file_data] holds under each key. *)
Lemma to_file_data_fields (self : @t Path) (verbose : bool)
    (fields : gmap string FileValue) :
  to_file_data self verbose = FileDict fields ->
  fields !! "path"%string = Some (FStr (str (file_path self))) /\
  fields !! "exclude_inherited_targets"%string = None /\
  (fields !! "name"%string = None \/
   fields !! "name"%string = Some (FStr (name self))) /\
  (fields !! "annotations"%string = None \/
   fields !! "annotations"%string = Some (FAnnotations (annotations self))) /\
  (fields !! "targets"%string = None \/
   fields !! "targets"%string = Some (FSet (targets self))).
Proof.
  unfold PipelineDefinition.to_file_data.
  destruct (_ && _ && _); [discriminate |].
  intros [= <-].
  destruct (negb _ || verbose), (bool_decide (annotations self ≠ ∅) || verbose),
    (bool_decide (targets self ≠ ∅) || verbose);
    simplify_map_eq; auto 10.
Qed.

(** Reading such a mapping back succeeds; nothing in it speaks of
    [exclude_inherited_targets], which is read as [False]. *)
Lemma from_file_data_of_fields (self : @t Path) (fields : gmap string FileValue)
    (parent_annotations : gmap string Value) :
  fields !! "path"%string = Some (FStr (str (file_path self))) ->
  fields !! "exclude_inherited_targets"%string = None ->
  (fields !! "name"%string = None \/
   fields !! "name"%string = Some (FStr (name self))) ->
  (fields !! "annotations"%string = None \/
   fields !! "annotations"%string = Some (FAnnotations (annotations self))) ->
  (fields !! "targets"%string = None \/
   fields !! "targets"%string = Some (FSet (targets self))) ->
  exists restored,
    from_file_data (FileDict fields) parent_annotations = Returns restored /\
    exclude_inherited_targets restored = false /\
    (fields !! "targets"%string = None -> targets restored = ∅).
Proof.
  intros Hpath Hexclude Hname Hannotations Htargets.
  unfold PipelineDefinition.from_file_data, pop, pop_default.
  rewrite Hpath. cbn [obind as_str].
  destruct Hname as [Hn | Hn], Hannotations as [Ha | Ha], Htargets as [Ht | Ht];
    repeat (progress (rewrite ?lookup_delete_ne by discriminate;
                      rewrite ?Hn, ?Hexclude, ?Ha, ?Ht; cbv beta iota zeta));
    cbn [obind as_str as_set as_bool as_annotations];
    eexists; (split; [reflexivity |]); (split; [reflexivity |]);
    cbn [targets]; intros; try discriminate; apply list_to_set_nil.
Qed.

Lemma from_file_data_of_path (self : @t Path)
    (parent_annotations : gmap string Value) :
  exists restored,
    from_file_data (FilePath (str (file_path self))) parent_annotations
      = Returns restored /\
    exclude_inherited_targets restored = false /\
    targets restored = ∅.
Proof.
  destruct (from_file_data_of_fields self
              {["path"%string := FStr (str (file_path self))]}
              parent_annotations)
    as (restored & Hrestored & Hexclude & Htargets);
    try (left; apply lookup_singleton_ne; discriminate).
  - apply lookup_singleton_eq.
  - apply lookup_singleton_ne. discriminate.
  - exists restored. split; [exact Hrestored |]. split; [exact Hexclude |].
    apply Htargets. apply lookup_singleton_ne. discriminate.
Qed.

Lemma to_file_data_path (self : @t Path) (verbose : bool) (s : string) :
  to_file_data self verbose = FilePath s -> s = str (file_path self).
Proof.
  unfold PipelineDefinition.to_file_data.
  destruct (_ && _ && _); [now intros [= <-] | discriminate].
Qed.

End PipelineDefinitionFacts.

(** C10. A definition named after the stem of its path and without
    annotations is written, when not verbose, as the path alone, whatever
    its targets and its [exclude_inherited_targets].  No mapping
    [to_file_data] writes has the key [exclude_inherited_targets].  Hence
    reading back what was written gives [exclude_inherited_targets] false
    in every mode, and no targets in the case of the path alone: a
    definition that excludes inherited targets, or one written as its path
    that has targets, is not the one read back. *)
Theorem to_file_data_omits_targets_and_exclusion {Path : Type}
    (Path_of_str : string -> Path) (str stem : Path -> string)
    (self : @PipelineDefinition.t Path) :
  let to_file_data := PipelineDefinition.to_file_data str stem in
  let from_file_data := PipelineDefinition.from_file_data Path_of_str stem in
  let written_as_path :=
    PipelineDefinition.name self = stem (PipelineDefinition.file_path self) /\
    PipelineDefinition.annotations self = ∅ in
  (written_as_path ->
   to_file_data self false =
   PipelineDefinition.FilePath (str (PipelineDefinition.file_path self))) /\
  (forall verbose fields,
     to_file_data self verbose = PipelineDefinition.FileDict fields ->
     fields !! "exclude_inherited_targets"%string = None) /\
  (forall verbose parent_annotations,
     exists restored,
       from_file_data (to_file_data self verbose) parent_annotations
         = Returns restored /\
       PipelineDefinition.exclude_inherited_targets restored = false /\
       (PipelineDefinition.exclude_inherited_targets self = true ->
        restored <> self)) /\
  (written_as_path ->
   forall parent_annotations,
     exists restored,
       from_file_data (to_file_data self false) parent_annotations
         = Returns restored /\
       PipelineDefinition.targets restored = ∅ /\
       PipelineDefinition.exclude_inherited_targets restored = false /\
       (PipelineDefinition.targets self <> ∅ -> restored <> self)).
Proof.
  intros to_file_data from_file_data written_as_path.
  assert (Hpath : written_as_path ->
    to_file_data self false =
    PipelineDefinition.FilePath (str (PipelineDefinition.file_path self))).
  { intros [Hname Hann]. subst to_file_data.
    unfold PipelineDefinition.to_file_data.
    rewrite Hann, (bool_decide_eq_true_2 _ Hname).
    rewrite bool_decide_eq_false_2 by (intros H; now apply H). reflexivity. }
  split; [exact Hpath |]. split; [| split].
  - intros verbose fields Hfields.
    now apply (to_file_data_fields str stem) in Hfields.
  - intros verbose parent_annotations.
    assert (Hrestored : exists restored,
      from_file_data (to_file_data self verbose) parent_annotations
        = Returns restored /\
      PipelineDefinition.exclude_inherited_targets restored = false).
    { destruct (to_file_data self verbose) as [s | fields] eqn:Hdata.
      - apply (to_file_data_path str stem) in Hdata as ->.
        destruct (from_file_data_of_path Path_of_str str stem self
                    parent_annotations) as (restored & Hr & Hex & _).
        now exists restored.
      - destruct (to_file_data_fields str stem self verbose fields Hdata)
          as (H1 & H2 & H3 & H4 & H5).
        destruct (from_file_data_of_fields Path_of_str str stem self fields
                    parent_annotations H1 H2 H3 H4 H5)
          as (restored & Hr & Hex & _).
        now exists restored. }
    destruct Hrestored as (restored & Hr & Hex).
    exists restored. split; [exact Hr |]. split; [exact Hex |].
    intros Hself Heq. rewrite Heq in Hex. congruence.
  - intros Hw parent_annotations. rewrite (Hpath Hw).
    destruct (from_file_data_of_path Path_of_str str stem self
                parent_annotations) as (restored & Hr & Hex & Ht).
    exists restored. split; [exact Hr |]. split; [exact Ht |].
    split; [exact Hex |].
    intros Hne Heq. apply Hne. now rewrite <- Heq.
Qed.

Example posix_stem_example :
  posix_stem "pipelines/people.yaml" = "people"%string.
Proof. reflexivity. Qed.

Lemma to_file_data_omits_targets_and_exclusion_witness :
  PipelineDefinition.to_file_data id posix_stem people_pipeline false =
    PipelineDefinition.FilePath "pipelines/people.yaml" /\
  exists restored,
    PipelineDefinition.from_file_data id posix_stem
      (PipelineDefinition.to_file_data id posix_stem people_pipeline false) ∅
      = Returns restored /\
    PipelineDefinition.targets restored = ∅ /\
    PipelineDefinition.exclude_inherited_targets restored = false /\
    restored <> people_pipeline.
Proof.
  destruct (to_file_data_omits_targets_and_exclusion id id posix_stem
              people_pipeline) as (Hpath & _ & _ & Hback).
  assert (Hw : PipelineDefinition.name people_pipeline =
               posix_stem (PipelineDefinition.file_path people_pipeline) /\
               PipelineDefinition.annotations people_pipeline = ∅)
    by (split; reflexivity).
  split; [exact (Hpath Hw) |].
  destruct (Hback Hw ∅) as (restored & Hr & Ht & Hex & Hne).
  exists restored. split; [exact Hr |]. split; [exact Ht |].
  split; [exact Hex |]. apply Hne. simpl. apply non_empty_singleton_L.
Defined.

(** ** The model, run on small inputs *)

Example py_eq_bool_int :
  py_eq (VBool true) (VInt 1) = true /\ py_eq (VStr "1") (VInt 1) = false.
Proof. split; reflexivity. Qed.

Example dict_setitem_keeps_place :
  dict_setitem (VStr "a") 3 [(VStr "a", 1); (VStr "b", 2)]
  = [(VStr "a", 3); (VStr "b", 2)] /\
  dict_setitem (VStr "c") 3 [(VStr "a", 1); (VStr "b", 2)]
  = [(VStr "a", 1); (VStr "b", 2); (VStr "c", 3)].
Proof. split; reflexivity. Qed.

(** The abstract predicate is called on a record, and fails; on [Flush] it
    is not called. *)
Example base_filter_on_data_and_flush :
  process_record BaseFilter.mk (Data (PDict [])) tt
  = ([FilterRecord (Data (PDict []))], Raises NotImplementedError) /\
  process_record BaseFilter.mk Flush tt = ([], Returns [Flush]).
Proof. split; reflexivity. Qed.

Example match_is_neither_search_nor_fullmatch :
  re.is_match (re.Chr "b") "ab" = false /\
  re.is_search (re.Chr "b") "ab" = true /\
  re.is_match (re.Chr "a") "ab" = true /\
  re.is_fullmatch (re.Chr "a") "ab" = false.
Proof. repeat split; reflexivity. Qed.

Example values_match_filter_on_records :
  let self :=
    ValuesMatchPossibilitiesFilter.mk [type_is_one_of [VStr "a"; VStr "b"]] in
  let keep := document (record_of_type "b") in
  let drop := document (record_of_type "z") in
  result (process_record self keep tt) = Returns [keep] /\
  result (process_record self drop tt) = Returns [] /\
  result (process_record (ExcludeWhenValuesMatchPossibilities.mk self) keep tt)
    = Returns [] /\
  result (process_record (ExcludeWhenValuesMatchPossibilities.mk self) drop tt)
    = Returns [drop].
Proof. repeat split; reflexivity. Qed.

(** A reporter with a callback and frequency 2 reports the records of
    index 0 and 2. *)
Example reporter_with_callback :
  calls (PipelineProgressReporter.execute_with_reporting
           (PipelineProgressReporter.mk 2 "root" (Some noting_callback))
           [Data (PDict []); Data (PList []); Data (PDict [])])
  = [PipelineProgressReporter.LoggerInfo "root" "Records Processed" 0;
     PipelineProgressReporter.CallbackCalled 0 (Data (PDict []));
     PipelineProgressReporter.LoggerInfo "root" "Records Processed" 2;
     PipelineProgressReporter.CallbackCalled 2 (Data (PDict []))].
Proof. reflexivity. Qed.

Example reporter_with_frequency_zero :
  result (PipelineProgressReporter.execute_with_reporting
            (PipelineProgressReporter.mk 0 "root" (Some noting_callback))
            [Data (PDict [])])
  = Raises ZeroDivisionError.
Proof. reflexivity. Qed.

(** * Further properties *)

(** ** Filters *)

Lemma py_all_stops_at_first_failure {E A} (f : A -> M E bool)
    (pre post : list A) (x : A) :
  result (f x) <> Returns true ->
  py_all f (pre ++ x :: post) = py_all f (pre ++ [x]).
Proof.
  intros Hx. induction pre as [| y pre IH]; simpl.
  - destruct (f x) as [t [[|] | e]]; simpl in *; congruence.
  - now rewrite IH.
Qed.

Lemma py_all_returns {E A} (f : A -> M E bool) (l : list A) :
  Forall (fun x => exists b, result (f x) = Returns b) l ->
  exists b, result (py_all f l) = Returns b.
Proof.
  induction 1 as [| x l [b Hb] _ [b' IH]]; simpl.
  - now exists true.
  - rewrite result_bind, Hb. destruct b; [now exists b' | now exists false].
Qed.

Lemma py_all_app_true {E A} (f : A -> M E bool) (l1 l2 : list A) :
  result (py_all f (l1 ++ l2)) = Returns true <->
  result (py_all f l1) = Returns true /\ result (py_all f l2) = Returns true.
Proof. rewrite !py_all_true. apply Forall_app. Qed.

(** X1. A filter emits nothing but the item it was given, and that at most
    once.  On a record it calls the predicate once, emits the record when
    the answer is false and nothing when it is true; an exception of the
    predicate is the exception of the step. *)
Theorem process_record_emits_at_most_its_input
    (F : Type) (is_filter : Filter F) (self : F) :
  (forall (r : PyObj),
     process_record self (Data r) tt =
     (FilterRecord (Data r) :: calls (filter_record self (Data r)),
      match result (filter_record self (Data r)) with
      | Returns remove => Returns (if remove then [] else [Data r])
      | Raises e => Raises e
      end)) /\
  (forall (item : Item) (out : list Item),
     result (process_record self item tt) = Returns out ->
     out = [] \/ out = [item]).
Proof.
  assert (Hdata : forall r : PyObj,
    process_record self (Data r) tt =
    (FilterRecord (Data r) :: calls (filter_record self (Data r)),
     match result (filter_record self (Data r)) with
     | Returns remove => Returns (if remove then [] else [Data r])
     | Raises e => Raises e
     end)).
  { intros r. unfold process_record, call_filter_record. simpl is_Flush.
    cbv iota. destruct (filter_record self (Data r)) as [t [[|] | e]];
      simpl; now rewrite ?app_nil_r. }
  split; [exact Hdata |].
  intros [| r] out.
  - intros [= <-]. now right.
  - rewrite Hdata. simpl.
    destruct (result (filter_record self (Data r))) as [[|] | e];
      intros [= <-]; auto.
Qed.

Lemma process_record_emits_at_most_its_input_witness :
  [Data (PDict [])] = ([] : list Item) \/
  [Data (PDict [])] = [Data (PDict [])].
Proof.
  apply (proj2 (process_record_emits_at_most_its_input _ _
                  (ValuesMatchPossibilitiesFilter.mk []))
           (Data (PDict [])) [Data (PDict [])]).
  reflexivity.
Defined.

(** X2. Without matchers a [ValuesMatchPossibilitiesFilter] keeps every
    record, and [ExcludeWhenValuesMatchPossibilities] drops every record,
    no provider being asked; this is what the two filters built from file
    data with an empty [fields] do. *)
Theorem filters_without_matchers
    (guarantee_value_provider : StaticValueOrValueProvider -> ValueProvider)
    (guarantee_provider_list :
       list StaticValueOrValueProvider -> list ValueProvider)
    (r : PyObj) :
  let including :=
    ValuesMatchPossibilitiesFilter.from_file_data guarantee_value_provider
      guarantee_provider_list [] in
  let excluding :=
    ExcludeWhenValuesMatchPossibilities.from_file_data guarantee_value_provider
      guarantee_provider_list [] in
  process_record including (Data r) tt
    = ([FilterRecord (Data r)], Returns [Data r]) /\
  process_record excluding (Data r) tt
    = ([FilterRecord (Data r); FilterRecord (Data r)], Returns []).
Proof. split; reflexivity. Qed.

(** X3. Matchers put one list after the other: the filter on [M1 ++ M2]
    answers false (keep) exactly when the filters on [M1] and on [M2] both
    do, and true (drop) exactly when the one on [M1] answers true, or
    answers false and the one on [M2] answers true. *)
Theorem values_match_filter_on_appended_matchers
    (M1 M2 : list ValueMatcher.t) (item : Item) :
  let answer Ms :=
    result (filter_record (ValuesMatchPossibilitiesFilter.mk Ms) item) in
  (answer (M1 ++ M2) = Returns false <->
   answer M1 = Returns false /\ answer M2 = Returns false) /\
  (answer (M1 ++ M2) = Returns true <->
   answer M1 = Returns true \/
   (answer M1 = Returns false /\ answer M2 = Returns true)).
Proof.
  intros answer.
  assert (Hanswer : forall Ms b, answer Ms = Returns b <->
    result (py_all (fun m => ValueMatcher.does_match m
                               (MkProviderContext item None)) Ms)
    = Returns (negb b)).
  { intros Ms b. apply (values_match_filter_record_result
                          (ValuesMatchPossibilitiesFilter.mk Ms)). }
  split.
  - rewrite !Hanswer. simpl. apply py_all_app_true.
  - rewrite !Hanswer. simpl. clear Hanswer answer.
    induction M1 as [| m M1 IH]; simpl.
    + split; [intros H; right; now split | intros [H | [_ H]]; [discriminate | exact H]].
    + rewrite !result_bind.
      destruct (result (ValueMatcher.does_match m _)) as [[|] | e].
      * exact IH.
      * split; [now left | reflexivity].
      * split; [discriminate | intros [H | [H _]]; discriminate].
Qed.

(** X4. The matchers are asked from the left and no further than the first
    one that does not match: what comes after a matcher that fails, or
    raises, changes neither the answer nor the calls made. *)
Theorem values_match_filter_stops_at_first_failure
    (pre post : list ValueMatcher.t) (m : ValueMatcher.t) (item : Item) :
  ~ matches (MkProviderContext item None) m ->
  filter_record (ValuesMatchPossibilitiesFilter.mk (pre ++ m :: post)) item =
  filter_record (ValuesMatchPossibilitiesFilter.mk (pre ++ [m])) item.
Proof.
  intros Hm.
  change (@filter_record ValuesMatchPossibilitiesFilter.t _)
    with ValuesMatchPossibilitiesFilter.filter_record.
  unfold ValuesMatchPossibilitiesFilter.filter_record. simpl.
  now rewrite py_all_stops_at_first_failure.
Qed.

Lemma values_match_filter_stops_at_first_failure_witness :
  let raising := MkValueProvider (fun _ _ => Raises (OtherError "unresolved")) in
  filter_record
    (ValuesMatchPossibilitiesFilter.mk
       [matcher_of (VStr "a") [VStr "b"];
        ValueMatcher.mk raising [] ∅]) (Data (PDict []))
  = filter_record
      (ValuesMatchPossibilitiesFilter.mk [matcher_of (VStr "a") [VStr "b"]])
      (Data (PDict [])).
Proof.
  intros raising.
  apply (values_match_filter_stops_at_first_failure [] [ValueMatcher.mk raising [] ∅]).
  discriminate.
Defined.

(** X5. When every matcher gives an answer, the order of the matchers does
    not matter to the decision. *)
Theorem values_match_filter_order_irrelevant
    (Ms Ms' : list ValueMatcher.t) (item : Item) :
  Forall (fun m => exists b,
            result (ValueMatcher.does_match m (MkProviderContext item None))
            = Returns b) Ms ->
  Ms ≡ₚ Ms' ->
  result (filter_record (ValuesMatchPossibilitiesFilter.mk Ms) item) =
  result (filter_record (ValuesMatchPossibilitiesFilter.mk Ms') item).
Proof.
  intros Htotal Hperm.
  assert (Htotal' : Forall (fun m => exists b,
            result (ValueMatcher.does_match m (MkProviderContext item None))
            = Returns b) Ms') by now rewrite <- Hperm.
  change (@filter_record ValuesMatchPossibilitiesFilter.t _)
    with ValuesMatchPossibilitiesFilter.filter_record.
  unfold ValuesMatchPossibilitiesFilter.filter_record. simpl.
  rewrite !result_bind.
  destruct (py_all_returns _ _ Htotal) as [b Hb].
  destruct (py_all_returns _ _ Htotal') as [b' Hb'].
  rewrite Hb, Hb'. simpl. do 2 f_equal.
  destruct b, b'; try reflexivity.
  - apply py_all_true in Hb. rewrite Hperm in Hb. apply py_all_true in Hb.
    congruence.
  - apply py_all_true in Hb'. rewrite <- Hperm in Hb'. apply py_all_true in Hb'.
    congruence.
Qed.

Lemma values_match_filter_order_irrelevant_witness :
  let m1 := matcher_of (VStr "a") [VStr "b"] in
  let m2 := matcher_of (VInt 1) [VInt 1] in
  result (filter_record (ValuesMatchPossibilitiesFilter.mk [m1; m2])
            (Data (PDict []))) =
  result (filter_record (ValuesMatchPossibilitiesFilter.mk [m2; m1])
            (Data (PDict []))).
Proof.
  intros m1 m2. apply values_match_filter_order_irrelevant.
  - repeat constructor; eexists; reflexivity.
  - apply Permutation_swap.
Defined.

(** ** Matchers *)

Lemma py_any_returns {E A} (f : A -> M E bool) (l : list A) :
  Forall (fun x => exists b, result (f x) = Returns b) l ->
  exists b, result (py_any f l) = Returns b.
Proof.
  induction 1 as [| x l [b Hb] _ [b' IH]]; simpl.
  - now exists false.
  - rewrite result_bind, Hb. destruct b; [now exists true | now exists b'].
Qed.

Lemma does_match_result (self : ValueMatcher.t) (context : ProviderContext) :
  result (ValueMatcher.does_match self context) =
  match normalize_single_value (ValueMatcher.value_provider self) context
          (ValueMatcher.normalization self) with
  | Returns a =>
      result (py_any (possibility_equals context
                        (ValueMatcher.normalization self) a)
                (ValueMatcher.possibilities self))
  | Raises e => Raises e
  end.
Proof.
  unfold ValueMatcher.does_match.
  rewrite result_bind, call_normalize_single_value_result.
  reflexivity.
Qed.

(** X6. A matcher without possibilities matches nothing: it answers false
    whenever its subject resolves.  The subject is resolved all the same, so
    that a subject that cannot be resolved makes the matcher raise; and a
    filter holding such a matcher drops every record whose subject
    resolves. *)
Theorem matcher_without_possibilities_never_matches
    (self : ValueMatcher.t) (context : ProviderContext) :
  ValueMatcher.possibilities self = [] ->
  ValueMatcher.does_match self context =
  ([NormalizeSingleValue (ValueMatcher.value_provider self) context
      (ValueMatcher.normalization self)],
   match normalize_single_value (ValueMatcher.value_provider self) context
           (ValueMatcher.normalization self) with
   | Returns _ => Returns false
   | Raises e => Raises e
   end) /\
  (forall r a others,
     context = MkProviderContext (Data r) None ->
     normalize_single_value (ValueMatcher.value_provider self) context
       (ValueMatcher.normalization self) = Returns a ->
     result (process_record
               (ValuesMatchPossibilitiesFilter.mk (self :: others))
               (Data r) tt) = Returns []).
Proof.
  intros Hnone.
  assert (Hmatch : ValueMatcher.does_match self context =
    ([NormalizeSingleValue (ValueMatcher.value_provider self) context
        (ValueMatcher.normalization self)],
     match normalize_single_value (ValueMatcher.value_provider self) context
             (ValueMatcher.normalization self) with
     | Returns _ => Returns false
     | Raises e => Raises e
     end)).
  { unfold ValueMatcher.does_match, call_normalize_single_value.
    rewrite Hnone. simpl.
    now destruct (normalize_single_value _ _ _). }
  split; [exact Hmatch |].
  intros r a others -> Ha.
  apply process_record_drops.
  change (@filter_record ValuesMatchPossibilitiesFilter.t _)
    with ValuesMatchPossibilitiesFilter.filter_record.
  apply values_match_filter_record_result. simpl.
  rewrite result_bind, Hmatch. simpl. now rewrite Ha.
Qed.

Lemma matcher_without_possibilities_never_matches_witness :
  result (process_record
            (ValuesMatchPossibilitiesFilter.mk
               [matcher_of (VStr "a") []; matcher_of (VStr "a") [VStr "a"]])
            (Data (PDict [])) tt) = Returns [].
Proof.
  exact (proj2 (matcher_without_possibilities_never_matches
                  (matcher_of (VStr "a") [])
                  (MkProviderContext (Data (PDict [])) None) eq_refl)
           (PDict []) (VStr "a") _ eq_refl eq_refl).
Defined.

(** X7. When the subject and every possibility resolve, the answer of
    [does_match] does not depend on the order of the possibilities. *)
Theorem does_match_order_of_possibilities_irrelevant
    (subject : ValueProvider) (ps ps' : list ValueProvider)
    (norm_args : Normalization) (context : ProviderContext) :
  Forall (fun p => exists v,
            normalize_single_value p context norm_args = Returns v) ps ->
  ps ≡ₚ ps' ->
  result (ValueMatcher.does_match (ValueMatcher.mk subject ps norm_args) context) =
  result (ValueMatcher.does_match (ValueMatcher.mk subject ps' norm_args) context).
Proof.
  intros Hresolve Hperm. rewrite !does_match_result. simpl.
  destruct (normalize_single_value subject context norm_args) as [a | e];
    [| reflexivity].
  assert (Htotal : forall l,
    Forall (fun p => exists v,
              normalize_single_value p context norm_args = Returns v) l ->
    Forall (fun p => exists b,
              result (possibility_equals context norm_args a p) = Returns b) l).
  { intros l Hl. eapply Forall_impl; [exact Hl |]. intros p [v Hv].
    exists (py_eq v a). apply possibility_equals_result. now exists v. }
  assert (Hresolve' : Forall (fun p => exists v,
            normalize_single_value p context norm_args = Returns v) ps')
    by now rewrite <- Hperm.
  destruct (py_any_returns _ _ (Htotal _ Hresolve)) as [b Hb].
  destruct (py_any_returns _ _ (Htotal _ Hresolve')) as [b' Hb'].
  rewrite Hb, Hb'. f_equal.
  destruct b, b'; try reflexivity.
  - apply py_any_true_total in Hb; [| now apply Htotal].
    rewrite Hperm in Hb. apply py_any_true_total in Hb; [| now apply Htotal].
    congruence.
  - apply py_any_true_total in Hb'; [| now apply Htotal].
    rewrite <- Hperm in Hb'. apply py_any_true_total in Hb'; [| now apply Htotal].
    congruence.
Qed.

Lemma does_match_order_of_possibilities_irrelevant_witness :
  let context := MkProviderContext (Data (PDict [])) None in
  result (ValueMatcher.does_match
            (ValueMatcher.mk (constant_provider (VStr "a"))
               [constant_provider (VStr "b"); constant_provider (VStr "a")] ∅)
            context) =
  result (ValueMatcher.does_match
            (ValueMatcher.mk (constant_provider (VStr "a"))
               [constant_provider (VStr "a"); constant_provider (VStr "b")] ∅)
            context).
Proof.
  intros context. apply does_match_order_of_possibilities_irrelevant.
  - repeat constructor; eexists; reflexivity.
  - apply Permutation_swap.
Defined.

Lemma should_include_result (self : RegexMatcher.t) (context : ProviderContext)
    (b : bool) :
  result (RegexMatcher.should_include self context) = Returns b <->
  exists s, normalize_single_value (RegexMatcher.value_provider self) context
              (RegexMatcher.normalization self) = Returns (VStr s) /\
            (if RegexMatcher.include self
             then negb (re.is_match (RegexMatcher.regex self) s)
             else re.is_match (RegexMatcher.regex self) s) = b.
Proof.
  unfold RegexMatcher.should_include.
  rewrite result_bind, call_normalize_single_value_result.
  destruct (normalize_single_value _ _ _) as [[| x | z | s] | e];
    try (split; [discriminate | intros (s' & Hs' & _); discriminate]).
  rewrite result_bind. simpl. split.
  - intros [= <-]. now exists s.
  - intros (s' & [= <-] & <-). reflexivity.
Qed.

Lemma should_include_raises (self : RegexMatcher.t) (context : ProviderContext) :
  match normalize_single_value (RegexMatcher.value_provider self) context
          (RegexMatcher.normalization self) with
  | Returns (VStr _) => True
  | Returns _ =>
      result (RegexMatcher.should_include self context) =
      Raises (TypeError "expected string or bytes-like object")
  | Raises e => result (RegexMatcher.should_include self context) = Raises e
  end.
Proof.
  unfold RegexMatcher.should_include.
  rewrite result_bind, call_normalize_single_value_result.
  now destruct (normalize_single_value _ _ _) as [[| x | z | s] | e].
Qed.

(** X8. [ValueMatchesRegexFilter]: with [include] true the filter keeps
    exactly the records whose value resolves to a string that the
    expression matches from its start, with [include] false exactly those
    whose value resolves to a string that it does not so match.  A value
    that is not a string ([None] for one) makes the step raise a
    [TypeError], and a failure to resolve is passed on: such a record is
    neither kept nor dropped.  Built from file data, the filter holds the
    compiled expression, and an expression that does not compile fails the
    construction. *)
Theorem regex_filter_keeps_matching_records
    (self : ValueMatchesRegexFilter.t) (r : PyObj) :
  let matcher := ValueMatchesRegexFilter.regex_matcher self in
  let resolved :=
    normalize_single_value (RegexMatcher.value_provider matcher)
      (MkProviderContext (Data r) None) (RegexMatcher.normalization matcher) in
  let matched_from_start (s : string) :=
    exists s1 s2, s = String.append s1 s2 /\
                  re.Matches (RegexMatcher.regex matcher) s1 in
  let kept := result (process_record self (Data r) tt) = Returns [Data r] in
  (RegexMatcher.include matcher = true ->
   (kept <-> exists s, resolved = Returns (VStr s) /\ matched_from_start s)) /\
  (RegexMatcher.include matcher = false ->
   (kept <-> exists s, resolved = Returns (VStr s) /\ ~ matched_from_start s)) /\
  (forall v, resolved = Returns v -> (forall s, v <> VStr s) ->
     result (process_record self (Data r) tt) =
     Raises (TypeError "expected string or bytes-like object")) /\
  (forall e, resolved = Raises e ->
     result (process_record self (Data r) tt) = Raises e) /\
  (forall guarantee_value_provider re_compile value regex include normalize,
     ValueMatchesRegexFilter.from_file_data guarantee_value_provider
       re_compile value regex include normalize =
     match re_compile regex with
     | Returns compiled =>
         Returns (ValueMatchesRegexFilter.mk
                    (RegexMatcher.mk (guarantee_value_provider value) compiled
                       include
                       (match normalize with Some n => n | None => ∅ end)))
     | Raises e => Raises e
     end).
Proof.
  intros matcher resolved matched_from_start kept.
  assert (Hkept : kept <->
    result (RegexMatcher.should_include matcher
              (MkProviderContext (Data r) None)) = Returns false).
  { exact (process_record_keeps self r tt). }
  assert (Hraise := should_include_raises matcher
                      (MkProviderContext (Data r) None)).
  fold resolved in Hraise.
  assert (Hstep : result (process_record self (Data r) tt) =
    match result (RegexMatcher.should_include matcher
                    (MkProviderContext (Data r) None)) with
    | Returns remove => Returns (if remove then [] else [Data r])
    | Raises e => Raises e
    end) by exact (process_record_result self r tt).
  split; [| split; [| split; [| split]]].
  - intros Hinc. rewrite Hkept, should_include_result, Hinc.
    split; intros (s & Hs & H); exists s; (split; [exact Hs |]).
    + apply re_is_match_spec. now apply negb_false_iff.
    + apply negb_false_iff. now apply re_is_match_spec.
  - intros Hinc. rewrite Hkept, should_include_result, Hinc.
    split; intros (s & Hs & H); exists s; (split; [exact Hs |]).
    + intros Hm. apply re_is_match_spec in Hm. congruence.
    + destruct (re.is_match (RegexMatcher.regex matcher) s) eqn:Hm;
        [| reflexivity].
      exfalso. apply H. now apply re_is_match_spec.
  - intros v Hv Hnot. rewrite Hstep. rewrite Hv in Hraise.
    destruct v as [| x | z | s]; try (now rewrite Hraise).
    now destruct (Hnot s).
  - intros e He. rewrite Hstep. rewrite He in Hraise. now rewrite Hraise.
  - intros g rc value regex include normalize.
    unfold ValueMatchesRegexFilter.from_file_data,
      RegexMatcher.from_file_data, RegexMatcher.__init__.
    now destruct (rc regex).
Qed.

Lemma regex_filter_keeps_matching_records_witness :
  let self := ValueMatchesRegexFilter.mk
                (RegexMatcher.mk (field_provider "type")
                   (re.Cat (re.Chr "a") (re.Star re.Dot)) true ∅) in
  result (process_record self (document (record_of_type "abc")) tt)
    = Returns [document (record_of_type "abc")] /\
  result (process_record self (Data (PDict [])) tt)
    = Raises (TypeError "expected string or bytes-like object").
Proof.
  intros self. split.
  - destruct (regex_filter_keeps_matching_records self
                (PDict [("type"%string, PScalar (VStr "abc"))]))
      as (Hinc & _).
    apply (Hinc eq_refl). exists "abc"%string. split; [reflexivity |].
    exists "abc"%string, ""%string. split; [reflexivity |].
    apply re_is_fullmatch_spec. reflexivity.
  - destruct (regex_filter_keeps_matching_records self (PDict []))
      as (_ & _ & Hnone & _).
    apply (Hnone VNone eq_refl). discriminate.
Defined.

(** ** The switch *)

Lemma switch_interpret_after_resolving {O}
    (self : SwitchInterpretation.t (Interpretation O))
    (context : InterpreterContext) (v : Value) :
  normalize_single_value (SwitchInterpretation.switch_on self) context
    (SwitchInterpretation.normalization self) = Returns v ->
  forall todo : Eff O,
    (if negb (dict_contains v (SwitchInterpretation.interpretations self))
     then match SwitchInterpretation.default self with
          | Some d => interpret d context
          | None => raise (UnhandledBranchError v)
          end
     else bind (lift (dict_getitem (SwitchInterpretation.interpretations self) v))
            (fun child => interpret child context)) = todo ->
    interpret (Switch self) context =
    (NormalizeSingleValue (SwitchInterpretation.switch_on self) context
       (SwitchInterpretation.normalization self) :: calls todo,
     result todo).
Proof.
  intros Hv todo <-. rewrite interpret_Switch.
  unfold SwitchInterpretation.interpret, call_normalize_single_value.
  unfold bind at 1. rewrite Hv.
  now destruct (if negb _ then _ else _).
Qed.



Lemma compile_cases_stops_at_first_failure {I}
    (from_file_arguments : list (string * PyObj) -> outcome I)
    (pre post : list (Value * PyObj)) (k : Value) (cfg : PyObj) (e : Exn) :
  Forall (fun kv => compiles from_file_arguments (snd kv)) pre ->
  fails_to_compile from_file_arguments cfg e ->
  forall acc,
    SwitchInterpretation.compile_cases from_file_arguments
      (pre ++ (k, cfg) :: post) acc = Raises e.
Proof.
  intros Hpre Hcfg. induction Hpre as [| [k0 c0] pre (kw & ch & Hkw & Hch) _ IH];
    intros acc; simpl in *.
  - destruct Hcfg as [-> | (kwargs & -> & ->)]; reflexivity.
  - rewrite Hkw, Hch. apply IH.
Qed.

Lemma compile_cases_succeeds {I}
    (from_file_arguments : list (string * PyObj) -> outcome I)
    (items : list (Value * PyObj)) :
  Forall (fun kv => compiles from_file_arguments (snd kv)) items ->
  forall acc, exists d,
    SwitchInterpretation.compile_cases from_file_arguments items acc = Returns d.
Proof.
  induction 1 as [| [k0 c0] items (kw & ch & Hkw & Hch) _ IH]; intros acc;
    simpl in *.
  - now exists acc.
  - rewrite Hkw, Hch. apply IH.
Qed.

(** X10. [__init__] compiles the cases in their order and then the default,
    and fails with the exception of the first configuration that does not
    compile: the cases after it, and the default, are not looked at.  When
    every case compiles, a default that is given (and not empty) and does
    not compile fails the construction, and otherwise the switch is
    built. *)
Theorem switch_init_fails_on_first_bad_configuration {I}
    (garuntee_value_provider : StaticValueOrValueProvider -> ValueProvider)
    (from_file_arguments : list (string * PyObj) -> outcome I)
    (switch_on : StaticValueOrValueProvider)
    (default : option PyObj) (normalization : option Normalization) :
  let init cases :=
    SwitchInterpretation.__init__ garuntee_value_provider from_file_arguments
      switch_on cases default normalization in
  (forall pre k cfg post e,
     Forall (fun kv => compiles from_file_arguments (snd kv)) pre ->
     fails_to_compile from_file_arguments cfg e ->
     init (pre ++ (k, cfg) :: post) = Raises e) /\
  (forall cases,
     Forall (fun kv => compiles from_file_arguments (snd kv)) cases ->
     (forall cfg e, default = Some cfg -> py_truthy cfg = true ->
        fails_to_compile from_file_arguments cfg e -> init cases = Raises e) /\
     ((default = None \/
       exists cfg, default = Some cfg /\
         (py_truthy cfg = false \/ compiles from_file_arguments cfg)) ->
      exists self, init cases = Returns self)).
Proof.
  intros init. split.
  - intros pre k cfg post e Hpre Hcfg. subst init.
    unfold SwitchInterpretation.__init__, dict_items.
    now rewrite (compile_cases_stops_at_first_failure _ pre post k cfg e).
  - intros cases Hcases.
    destruct (compile_cases_succeeds from_file_arguments cases Hcases [])
      as [d Hd].
    subst init. unfold SwitchInterpretation.__init__, dict_items. rewrite Hd.
    unfold SwitchInterpretation.compile_default. split.
    + intros cfg e -> -> [-> | (kwargs & -> & ->)]; reflexivity.
    + intros [-> | (cfg & -> & [-> | (kwargs & child & -> & ->)])];
        try destruct (py_truthy cfg); eexists; reflexivity.
Qed.

Lemma switch_init_fails_on_first_bad_configuration_witness :
  SwitchInterpretation.__init__ example_garuntee example_from_file_arguments
    (Provider (field_provider "type"))
    [(VStr "a", example_config "X"); (VStr "b", PList []);
     (VStr "c", PScalar VNone)]
    (Some (PList [])) None
  = Raises (TypeError "argument after ** must be a mapping") /\
  exists self,
    SwitchInterpretation.__init__ example_garuntee example_from_file_arguments
      (Provider (field_provider "type"))
      [(VStr "a", example_config "X")] (Some (PDict [])) None = Returns self.
Proof.
  destruct (switch_init_fails_on_first_bad_configuration example_garuntee
              example_from_file_arguments (Provider (field_provider "type"))
              (Some (PList [])) None) as [Hfirst _].
  split.
  - apply (Hfirst [(VStr "a", example_config "X")] (VStr "b") (PList [])
             [(VStr "c", PScalar VNone)]).
    + repeat constructor. eexists _, _. split; reflexivity.
    + left. reflexivity.
  - destruct (switch_init_fails_on_first_bad_configuration example_garuntee
                example_from_file_arguments (Provider (field_provider "type"))
                (Some (PDict [])) None) as [_ Hall].
    apply (Hall [(VStr "a", example_config "X")]).
    + repeat constructor. eexists _, _. split; reflexivity.
    + right. exists (PDict []). split; [reflexivity |]. now left.
Defined.

Lemma dict_lookup_compiled {I}
    (from_file_arguments : list (string * PyObj) -> outcome I)
    (cases : pydict PyObj) (compiled : pydict I) (v : Value) :
  Forall2 (compiled_from from_file_arguments) cases compiled ->
  match dict_lookup v cases with
  | Some cfg => exists kwargs child,
      as_kwargs cfg = Returns kwargs /\
      from_file_arguments kwargs = Returns child /\
      dict_lookup v compiled = Some child
  | None => dict_lookup v compiled = None
  end.
Proof.
  induction 1 as [| [k cfg] [k' child] cases compiled [Hk (kw & Hkw & Hch)] _ IH];
    simpl in *; [reflexivity |].
  subst k'. destruct (py_eq k v); [| exact IH].
  now exists kw, child.
Qed.

Lemma switch_init_inversion {I}
    (garuntee_value_provider : StaticValueOrValueProvider -> ValueProvider)
    (from_file_arguments : list (string * PyObj) -> outcome I)
    (switch_on : StaticValueOrValueProvider) (cases : pydict PyObj)
    (default : option PyObj) (normalization : option Normalization)
    (self : SwitchInterpretation.t I) :
  SwitchInterpretation.__init__ garuntee_value_provider from_file_arguments
    switch_on cases default normalization = Returns self ->
  SwitchInterpretation.switch_on self = garuntee_value_provider switch_on /\
  SwitchInterpretation.normalization self =
    match normalization with Some n => n | None => ∅ end /\
  SwitchInterpretation.compile_cases from_file_arguments (dict_items cases) []
    = Returns (SwitchInterpretation.interpretations self) /\
  SwitchInterpretation.compile_default from_file_arguments default
    = Returns (SwitchInterpretation.default self).
Proof.
  unfold SwitchInterpretation.__init__.
  destruct (SwitchInterpretation.compile_cases _ _ _) as [d |]; [| discriminate].
  destruct (SwitchInterpretation.compile_default _ _) as [o |]; [| discriminate].
  intros [= <-]. now repeat split.
Qed.

(** X11. A default that is given but empty (or otherwise false) is no
    default: the switch built with it is the switch built without one, and
    on a value that no case has it raises [UnhandledBranchError]. *)
Theorem switch_built_with_empty_default_has_none {O}
    (garuntee_value_provider : StaticValueOrValueProvider -> ValueProvider)
    (from_file_arguments : list (string * PyObj) -> outcome (Interpretation O))
    (switch_on : StaticValueOrValueProvider) (cases : pydict PyObj)
    (cfg : PyObj) (normalization : option Normalization) :
  py_truthy cfg = false ->
  let init default :=
    SwitchInterpretation.__init__ garuntee_value_provider from_file_arguments
      switch_on cases default normalization in
  init (Some cfg) = init None /\
  (forall self context v,
     init (Some cfg) = Returns self ->
     normalize_single_value (SwitchInterpretation.switch_on self) context
       (SwitchInterpretation.normalization self) = Returns v ->
     dict_contains v (SwitchInterpretation.interpretations self) = false ->
     result (interpret (Switch self) context) =
     Raises (UnhandledBranchError v)).
Proof.
  intros Hfalse init.
  assert (Hsame : init (Some cfg) = init None).
  { subst init. unfold SwitchInterpretation.__init__,
      SwitchInterpretation.compile_default. now rewrite Hfalse. }
  split; [exact Hsame |].
  intros self context v Hself Hv Hout.
  rewrite Hsame in Hself. subst init.
  apply switch_init_inversion in Hself as (_ & _ & _ & Hdefault).
  injection Hdefault as Hdefault.
  rewrite (switch_interpret_after_resolving self context v Hv
             (raise (UnhandledBranchError v))); [reflexivity |].
  now rewrite Hout, <- Hdefault.
Qed.

Lemma switch_built_with_empty_default_has_none_witness :
  exists self,
    SwitchInterpretation.__init__ example_garuntee example_from_file_arguments
      (Provider (field_provider "type"))
      [(VStr "a", example_config "X")] (Some (PDict [])) None = Returns self /\
    result (interpret (Switch self) (record_of_type "z"))
      = Raises (UnhandledBranchError (VStr "z")).
Proof.
  destruct (switch_built_with_empty_default_has_none example_garuntee
              example_from_file_arguments (Provider (field_provider "type"))
              [(VStr "a", example_config "X")] (PDict []) None eq_refl)
    as [_ Hraise].
  eexists. split; [reflexivity |].
  apply Hraise; reflexivity.
Defined.

(** X12. A switch built from well-formed cases dispatches by its
    configuration: it asks the provider made of [switch_on] with the
    normalization given ([{}] when none is); on a value that is a key of the
    configured cases it runs the interpretation compiled from that case's
    configuration, and a value that is no key of the configuration is no
    key of the switch. *)
Theorem switch_built_dispatches_to_compiled_case {O}
    (garuntee_value_provider : StaticValueOrValueProvider -> ValueProvider)
    (from_file_arguments : list (string * PyObj) -> outcome (Interpretation O))
    (switch_on : StaticValueOrValueProvider) (cases : pydict PyObj)
    (default : option PyObj) (normalization : option Normalization)
    (self : SwitchInterpretation.t (Interpretation O))
    (context : InterpreterContext) (v : Value) :
  dict_wf cases = true ->
  SwitchInterpretation.__init__ garuntee_value_provider from_file_arguments
    switch_on cases default normalization = Returns self ->
  let norm_args := match normalization with Some n => n | None => ∅ end in
  let asked :=
    NormalizeSingleValue (garuntee_value_provider switch_on) context norm_args in
  normalize_single_value (garuntee_value_provider switch_on) context norm_args
    = Returns v ->
  match dict_lookup v cases with
  | Some cfg =>
      exists kwargs child,
        as_kwargs cfg = Returns kwargs /\
        from_file_arguments kwargs = Returns child /\
        interpret (Switch self) context =
        (asked :: calls (interpret child context),
         result (interpret child context))
  | None =>
      dict_contains v (SwitchInterpretation.interpretations self) = false
  end.
Proof.
  intros Hwf Hself norm_args asked Hv.
  apply switch_init_inversion in Hself as (Hsw & Hnorm & Hcases & _).
  apply compile_cases_spec in Hcases as (compiled & Hcompiled & Hall);
    [| exact Hwf | apply Forall_forall; reflexivity].
  simpl in Hcompiled.
  pose proof (dict_lookup_compiled from_file_arguments cases compiled v Hall)
    as Hlookup.
  subst asked norm_args. rewrite <- Hsw, <- Hnorm in *.
  destruct (dict_lookup v cases) as [cfg |].
  - destruct Hlookup as (kwargs & child & Hkw & Hch & Hl).
    exists kwargs, child. split; [exact Hkw |]. split; [exact Hch |].
    apply (switch_interpret_after_resolving self context v Hv).
    unfold dict_contains, dict_getitem. rewrite Hcompiled, Hl.
    unfold lift, bind. simpl negb. cbv iota.
    now destruct (interpret child context).
  - unfold dict_contains. now rewrite Hcompiled, Hlookup.
Qed.

Lemma switch_built_dispatches_to_compiled_case_witness :
  exists self,
    SwitchInterpretation.__init__ example_garuntee example_from_file_arguments
      (Provider (field_provider "type"))
      [(VStr "a", example_config "X"); (VStr "b", example_config "Y")]
      None None = Returns self /\
    result (interpret (Switch self) (record_of_type "b")) = Returns "Y"%string.
Proof.
  eexists. split; [reflexivity |].
  destruct (switch_built_dispatches_to_compiled_case example_garuntee
              example_from_file_arguments (Provider (field_provider "type"))
              [(VStr "a", example_config "X"); (VStr "b", example_config "Y")]
              None None _ (record_of_type "b") (VStr "b") eq_refl eq_refl
              eq_refl)
    as (kwargs & child & Hkw & Hch & Hrun).
  injection Hkw as <-. injection Hch as <-.
  rewrite Hrun. reflexivity.
Defined.

(** ** The progress reporter *)

Lemma execute_from_reports (self : PipelineProgressReporter.t)
    (cb : Z -> Item -> M PipelineProgressReporter.ReportEvent unit) :
  PipelineProgressReporter.callback self = Some cb ->
  PipelineProgressReporter.reporting_frequency self <> 0 ->
  (forall i r, result (cb i r) = Returns tt) ->
  forall records start,
    PipelineProgressReporter.execute_from self start records =
    (flat_map (due_report self cb) (enumerate_from start records), Returns tt).
Proof.
  intros Hcb Hf Hreturns. induction records as [| r records IH]; intros start.
  - reflexivity.
  - cbn [PipelineProgressReporter.execute_from enumerate_from flat_map].
    rewrite IH.
    set (later := flat_map (due_report self cb)
                    (enumerate_from (start + 1) records)).
    unfold due_report. cbn [fst snd].
    unfold PipelineProgressReporter.py_mod.
    rewrite (proj2 (Z.eqb_neq _ 0) Hf). unfold lift. cbn [bind app].
    destruct (Z.eqb (start mod _) 0).
    + unfold PipelineProgressReporter.report, PipelineProgressReporter.call.
      rewrite Hcb. specialize (Hreturns start r).
      destruct (cb start r) as [t [[] | e]]; simpl in *; [| discriminate].
      reflexivity.
    + reflexivity.
Qed.

(** X13. A reporter with a frequency other than zero and a callback that
    returns goes through the whole run and reports exactly the records whose
    index, counted from zero, is a multiple of the frequency: for each of
    them, in order, one line is logged and the callback is called, and
    nothing happens for the others. *)
Theorem reporter_reports_every_multiple_of_frequency
    (self : PipelineProgressReporter.t)
    (cb : Z -> Item -> M PipelineProgressReporter.ReportEvent unit)
    (records : list Item) :
  PipelineProgressReporter.callback self = Some cb ->
  PipelineProgressReporter.reporting_frequency self <> 0 ->
  (forall i r, result (cb i r) = Returns tt) ->
  PipelineProgressReporter.execute_with_reporting self records =
  (flat_map (due_report self cb) (enumerate_from 0 records), Returns tt).
Proof.
  intros Hcb Hf Hreturns. now apply execute_from_reports.
Qed.

Lemma reporter_reports_every_multiple_of_frequency_witness :
  calls (PipelineProgressReporter.execute_with_reporting
           (PipelineProgressReporter.mk 2 "root" (Some noting_callback))
           [Data (PDict []); Data (PList []); Data (PDict [])])
  = [PipelineProgressReporter.LoggerInfo "root" "Records Processed" 0;
     PipelineProgressReporter.CallbackCalled 0 (Data (PDict []));
     PipelineProgressReporter.LoggerInfo "root" "Records Processed" 2;
     PipelineProgressReporter.CallbackCalled 2 (Data (PDict []))].
Proof.
  rewrite (reporter_reports_every_multiple_of_frequency
             (PipelineProgressReporter.mk 2 "root" (Some noting_callback))
             noting_callback _ eq_refl).
  - reflexivity.
  - discriminate.
  - reflexivity.
Defined.

(** X14. With a frequency of zero the run fails on its first record with
    [ZeroDivisionError], before anything is logged or called; a run without
    records ends quietly whatever the reporter. *)
Theorem reporter_with_zero_frequency_fails
    (self : PipelineProgressReporter.t) :
  PipelineProgressReporter.execute_with_reporting self [] = ([], Returns tt) /\
  (PipelineProgressReporter.reporting_frequency self = 0 ->
   forall record rest,
     PipelineProgressReporter.execute_with_reporting self (record :: rest) =
     ([], Raises ZeroDivisionError)).
Proof.
  split; [reflexivity |]. intros Hf record rest.
  unfold PipelineProgressReporter.execute_with_reporting.
  cbn [PipelineProgressReporter.execute_from].
  unfold PipelineProgressReporter.py_mod. now rewrite Hf.
Qed.

Lemma reporter_with_zero_frequency_fails_witness :
  PipelineProgressReporter.execute_with_reporting
    (PipelineProgressReporter.mk 0 "root" (Some noting_callback))
    [Data (PDict [])]
  = ([], Raises ZeroDivisionError).
Proof.
  exact (proj2 (reporter_with_zero_frequency_fails
                  (PipelineProgressReporter.mk 0 "root" (Some noting_callback)))
           eq_refl (Data (PDict [])) []).
Defined.

(** X15. Whatever the frequency, if it is not zero, the first record is
    reported: index 0 is a multiple of every frequency.  So a reporter
    without a callback fails on the first record of every run that is not
    empty, after the one line it logs, and the rest of the run is not
    seen. *)
Theorem reporter_without_callback_fails_at_first_record
    (self : PipelineProgressReporter.t) (record : Item) (rest : list Item) :
  PipelineProgressReporter.reporting_frequency self <> 0 ->
  (exists more,
     calls (PipelineProgressReporter.execute_with_reporting self
              (record :: rest)) =
     PipelineProgressReporter.LoggerInfo
       (PipelineProgressReporter.logger self) "Records Processed" 0 :: more) /\
  (PipelineProgressReporter.callback self = None ->
   PipelineProgressReporter.execute_with_reporting self (record :: rest) =
   ([PipelineProgressReporter.LoggerInfo
       (PipelineProgressReporter.logger self) "Records Processed" 0],
    Raises (TypeError "'NoneType' object is not callable"))).
Proof.
  intros Hf.
  assert (Hrun : PipelineProgressReporter.execute_with_reporting self
                   (record :: rest) =
    bind (PipelineProgressReporter.report self 0 record)
      (fun _ => PipelineProgressReporter.execute_from self 1 rest)).
  { unfold PipelineProgressReporter.execute_with_reporting.
    cbn [PipelineProgressReporter.execute_from].
    unfold PipelineProgressReporter.py_mod.
    rewrite (proj2 (Z.eqb_neq _ 0) Hf), Zmod_0_l. unfold lift.
    unfold bind at 1. cbn [Z.eqb]. change (0 + 1) with 1.
    now destruct (bind _ _). }
  split.
  - rewrite Hrun, calls_bind.
    unfold PipelineProgressReporter.report. rewrite calls_bind.
    simpl. eexists. reflexivity.
  - intros Hnone. rewrite Hrun.
    unfold PipelineProgressReporter.report, PipelineProgressReporter.call.
    now rewrite Hnone.
Qed.

Lemma reporter_without_callback_fails_at_first_record_witness :
  PipelineProgressReporter.execute_with_reporting
    (PipelineProgressReporter.mk 7 "root" None) [Data (PDict []); Flush]
  = ([PipelineProgressReporter.LoggerInfo "root" "Records Processed" 0],
     Raises (TypeError "'NoneType' object is not callable")).
Proof.
  apply (reporter_without_callback_fails_at_first_record
           (PipelineProgressReporter.mk 7 "root" None));
    [discriminate | reflexivity].
Defined.

Lemma bind_ext_on_success {E A B} (m : M E A) (k k' : A -> M E B) :
  (forall a, result m = Returns a -> k a = k' a) -> bind m k = bind m k'.
Proof.
  intros H. destruct m as [t [a | e]]; simpl in *; [| reflexivity].
  now rewrite (H a).
Qed.

(** X16. An exception ends the run: when the run of some records fails,
    the run of those records followed by others is the same computation:
    nothing of what follows is logged or called. *)
Theorem reporter_failure_ends_the_run
    (self : PipelineProgressReporter.t) (pre post : list Item) (e : Exn) :
  result (PipelineProgressReporter.execute_with_reporting self pre) = Raises e ->
  PipelineProgressReporter.execute_with_reporting self (pre ++ post) =
  PipelineProgressReporter.execute_with_reporting self pre.
Proof.
  unfold PipelineProgressReporter.execute_with_reporting. generalize 0.
  induction pre as [| r pre IH]; intros start H; [discriminate |].
  cbn [PipelineProgressReporter.execute_from app] in *.
  apply bind_ext_on_success. intros remainder Hremainder.
  apply bind_ext_on_success. intros [] Hstep.
  apply IH. now rewrite result_bind, Hremainder, result_bind, Hstep in H.
Qed.

Lemma reporter_failure_ends_the_run_witness :
  PipelineProgressReporter.execute_with_reporting
    PipelineProgressReporter.defaults
    ([Data (PDict [])] ++ [Data (PList []); Flush]) =
  PipelineProgressReporter.execute_with_reporting
    PipelineProgressReporter.defaults [Data (PDict [])].
Proof.
  apply (reporter_failure_ends_the_run PipelineProgressReporter.defaults
           [Data (PDict [])] [Data (PList []); Flush]
           (TypeError "'NoneType' object is not callable")).
  reflexivity.
Defined.

(** ** Pipeline definitions *)

Section PipelineDefinitionRoundTrip.
Import PipelineDefinition.
Context {Path : Type}.
Variable Path_of_str : string -> Path.
Variable str : Path -> string.
Variable stem : Path -> string.

#[local] Abbreviation to_file_data := (to_file_data str stem).
#[local] Abbreviation from_file_data := (from_file_data Path_of_str stem).

(** [from_file_data] on a mapping, with the pops read as lookups. *)
Lemma from_file_data_of_mapping (fields : gmap string FileValue)
    (parent_annotations : gmap string Value) :
  from_file_data (FileDict fields) parent_annotations =
  match fields !! "path"%string with
  | None => Raises (KeyError (VStr "path"))
  | Some path =>
      obind (as_str path) (fun path =>
      let file_path := Path_of_str path in
      obind (as_str (default (FStr (stem file_path)) (fields !! "name"%string)))
        (fun name =>
      obind (as_set (default (FList []) (fields !! "targets"%string)))
        (fun targets =>
      obind (as_bool (default (FBool false)
                        (fields !! "exclude_inherited_targets"%string)))
        (fun exclude_targets =>
      obind (as_annotations (default (FAnnotations ∅)
                               (fields !! "annotations"%string)))
        (fun annotations =>
      Returns (mk name file_path targets exclude_targets
                 (merge_annotations parent_annotations annotations)))))))
  end.
Proof.
  unfold PipelineDefinition.from_file_data, pop, pop_default,
    get_default_name.
  destruct (fields !! "path"%string) as [path |]; [| reflexivity].
  cbn [obind]. destruct (as_str path) as [s |]; [| reflexivity]. cbn [obind].
  rewrite lookup_delete_ne by discriminate.
  destruct (fields !! "name"%string) as [name |];
    rewrite ?lookup_delete_ne by discriminate;
    destruct (fields !! "exclude_inherited_targets"%string) as [ex |];
    rewrite ?lookup_delete_ne by discriminate;
    destruct (fields !! "annotations"%string) as [ann |];
    rewrite ?lookup_delete_ne by discriminate;
    destruct (fields !! "targets"%string) as [tg |];
    reflexivity.
Qed.

(** What [to_file_data] writes under each key when it writes a mapping. *)
Lemma to_file_data_written (self : @t Path) (verbose : bool)
    (fields : gmap string FileValue) :
  to_file_data self verbose = FileDict fields ->
  fields !! "path"%string = Some (FStr (str (file_path self))) /\
  fields !! "exclude_inherited_targets"%string = None /\
  fields !! "name"%string =
    (if negb (bool_decide (name self = stem (file_path self))) || verbose
     then Some (FStr (name self)) else None) /\
  fields !! "annotations"%string =
    (if bool_decide (annotations self ≠ ∅) || verbose
     then Some (FAnnotations (annotations self)) else None) /\
  fields !! "targets"%string =
    (if bool_decide (targets self ≠ ∅) || verbose
     then Some (FSet (targets self)) else None) /\
  (forall key, is_Some (fields !! key) ->
     key ∈ ({["path"; "name"; "annotations"; "targets"]}%string : gset string)).
Proof.
  unfold PipelineDefinition.to_file_data.
  destruct (_ && _ && _); [discriminate |].
  intros [= <-].
  destruct (negb _ || verbose), (bool_decide (annotations self ≠ ∅) || verbose),
    (bool_decide (targets self ≠ ∅) || verbose);
    (repeat split; [simplify_map_eq; reflexivity .. |]);
    intros key [v Hv];
    repeat (apply lookup_insert_Some in Hv as [[<- _] | [_ Hv]];
            [set_solver |]);
    apply lookup_singleton_Some in Hv as [<- _]; set_solver.
Qed.

Lemma to_file_data_is_path (self : @t Path) (verbose : bool) (s : string) :
  to_file_data self verbose = FilePath s ->
  name self = stem (file_path self) /\ annotations self = ∅ /\
  verbose = false /\ s = str (file_path self).
Proof.
  unfold PipelineDefinition.to_file_data.
  destruct (bool_decide (name self = stem (file_path self))) eqn:Hname;
    [| discriminate].
  destruct (bool_decide (annotations self ≠ ∅)) eqn:Hann; [discriminate |].
  destruct verbose; [discriminate |]. simpl. intros [= <-].
  apply bool_decide_eq_true_1 in Hname.
  apply bool_decide_eq_false_1 in Hann.
  repeat split; [exact Hname |].
  destruct (decide (annotations self = ∅)) as [H | H]; [exact H | now destruct Hann].
Qed.

Lemma from_file_data_of_path_string (s : string)
    (parent_annotations : gmap string Value) :
  from_file_data (FilePath s) parent_annotations =
  Returns (mk (stem (Path_of_str s)) (Path_of_str s) ∅ false parent_annotations).
Proof.
  change (from_file_data (FilePath s) parent_annotations)
    with (from_file_data (FileDict {["path"%string := FStr s]})
            parent_annotations).
  rewrite from_file_data_of_mapping, lookup_singleton_eq.
  rewrite !lookup_singleton_ne by discriminate. simpl.
  unfold merge_annotations.
  now rewrite ?list_to_set_nil, (left_id_L ∅ (∪)).
Qed.

(** X17. Reading back what [to_file_data] wrote gives the definition
    again, with the parent's annotations added under the keys it does not
    annotate itself, when its path survives [str] and [Path],
    [exclude_inherited_targets] is false, and the definition is not one
    that is written as its path alone while having targets.  Without
    parent annotations it is the very same definition. *)
Theorem definition_survives_write_and_read (self : @t Path) (verbose : bool)
    (parent_annotations : gmap string Value) :
  Path_of_str (str (file_path self)) = file_path self ->
  exclude_inherited_targets self = false ->
  (verbose = true \/ name self <> stem (file_path self) \/
   annotations self <> ∅ \/ targets self = ∅) ->
  from_file_data (to_file_data self verbose) parent_annotations =
    Returns (mk (name self) (file_path self) (targets self) false
               (annotations self ∪ parent_annotations)) /\
  from_file_data (to_file_data self verbose) ∅ = Returns self.
Proof.
  intros Hpath Hexclude Hform.
  assert (Hread : forall parent,
    from_file_data (to_file_data self verbose) parent =
    Returns (mk (name self) (file_path self) (targets self) false
               (annotations self ∪ parent))).
  { intros parent.
    destruct (to_file_data self verbose) as [s | fields] eqn:Hdata.
    - apply to_file_data_is_path in Hdata as (Hname & Hann & -> & ->).
      rewrite from_file_data_of_path_string, Hpath, <- Hname, Hann.
      destruct Hform as [H | [H | [H | H]]]; try congruence.
      now rewrite H, (left_id_L ∅ (∪)).
    - apply to_file_data_written in Hdata
        as (Hp & Hex & Hname & Hann & Htargets & _).
      rewrite from_file_data_of_mapping, Hp, Hex, Hname, Hann, Htargets.
      cbn [obind as_str]. rewrite Hpath. unfold merge_annotations.
      destruct (bool_decide (name self = stem (file_path self))) eqn:Hdn;
        destruct (bool_decide (annotations self ≠ ∅)) eqn:Hda;
        destruct (bool_decide (targets self ≠ ∅)) eqn:Hdt;
        destruct verbose; simpl;
        try apply bool_decide_eq_true_1 in Hdn;
        try (apply bool_decide_eq_false_1 in Hda;
             assert (annotations self = ∅)
               by (destruct (decide (annotations self = ∅)); tauto));
        try (apply bool_decide_eq_false_1 in Hdt;
             assert (targets self = ∅)
               by (destruct (decide (targets self = ∅)); tauto));
        rewrite ?list_to_set_nil; congruence. }
  split; [apply Hread |].
  rewrite Hread, (right_id_L ∅ (∪)), <- Hexclude. now destruct self.
Qed.

(** X18. A definition made from a path alone is written as that path, and
    a path alone is read as the definition from that path, named after its
    stem, without targets, with the parent's annotations for its own. *)
Theorem definition_from_path_is_written_as_path (file_path : Path) (s : string)
    (parent_annotations : gmap string Value) :
  to_file_data (from_path stem file_path) false = FilePath (str file_path) /\
  from_file_data (FilePath s) parent_annotations =
    Returns (mk (stem (Path_of_str s)) (Path_of_str s) ∅ false
               parent_annotations) /\
  from_file_data (FilePath s) ∅ = Returns (from_path stem (Path_of_str s)).
Proof.
  split; [| split].
  - unfold PipelineDefinition.to_file_data, from_path, get_default_name. simpl.
    rewrite bool_decide_eq_true_2 by reflexivity.
    now rewrite bool_decide_eq_false_2 by (intros H; now apply H).
  - apply from_file_data_of_path_string.
  - apply from_file_data_of_path_string.
Qed.

(** X19. A mapping without [path] cannot be read: [from_file_data] raises
    [KeyError] for [path], whatever else the mapping holds. *)
Theorem definition_without_path_raises (fields : gmap string FileValue)
    (parent_annotations : gmap string Value) :
  fields !! "path"%string = None ->
  from_file_data (FileDict fields) parent_annotations =
  Raises (KeyError (VStr "path")).
Proof.
  intros Hnone. now rewrite from_file_data_of_mapping, Hnone.
Qed.

(** X20. The annotations of a definition that is read are its own, from the
    file data, over the parent's: under a key the file data annotates the
    definition has the value of the file data, and under every other key
    the value of the parent, if any. *)
Theorem definition_annotations_override_parent (data : FileData)
    (parent_annotations : gmap string Value) (definition : @t Path) :
  from_file_data data parent_annotations = Returns definition ->
  let own :=
    match data with
    | FileDict fields =>
        match fields !! "annotations"%string with
        | Some (FAnnotations a) => a
        | _ => ∅
        end
    | FilePath _ => ∅
    end in
  forall key,
    annotations definition !! key =
    match own !! key with
    | Some v => Some v
    | None => parent_annotations !! key
    end.
Proof.
  intros Hread own key.
  assert (Hann : annotations definition = own ∪ parent_annotations).
  { subst own. destruct data as [s | fields].
    - rewrite from_file_data_of_path_string in Hread. injection Hread as <-.
      cbn [annotations]. now rewrite (left_id_L ∅ (∪)).
    - rewrite from_file_data_of_mapping in Hread.
      destruct (fields !! "path"%string) as [path |]; [| discriminate].
      cbn [obind] in Hread.
      destruct (as_str path); [| discriminate]. cbn [obind] in Hread.
      destruct (as_str _); [| discriminate]. cbn [obind] in Hread.
      destruct (as_set _); [| discriminate]. cbn [obind] in Hread.
      destruct (as_bool _); [| discriminate]. cbn [obind] in Hread.
      destruct (fields !! "annotations"%string) as [[] |]; simpl in Hread;
        try discriminate; injection Hread as <-; reflexivity. }
  rewrite Hann, lookup_union.
  destruct (own !! key), (parent_annotations !! key); reflexivity.
Qed.

(** X21. The schema of [describe_yaml_schema] accepts every string, the
    file not having to exist.  Of the mappings that [to_file_data] writes
    it accepts those whose path exists, whose annotations are none of them
    [None], and that have no [targets]: the targets are written as the set
    they are, where the schema asks for a list.  So nothing written with
    [verbose] is accepted, nor any mapping written with targets. *)
Theorem written_file_data_against_schema (path_exists : FileValue -> bool)
    (self : @t Path) (verbose : bool) :
  (forall s, describe_yaml_schema path_exists (FilePath s) = true) /\
  (forall fields, to_file_data self verbose = FileDict fields ->
     describe_yaml_schema path_exists (FileDict fields) =
     path_exists (FStr (str (file_path self)))
     && bool_decide (map_Forall (fun _ x => annotation_value_ok x = true)
                       (annotations self))
     && negb (bool_decide (targets self ≠ ∅) || verbose)) /\
  (forall fields, to_file_data self true = FileDict fields ->
     describe_yaml_schema path_exists (FileDict fields) = false).
Proof using Path str stem.
  clear Path_of_str.
  assert (Hdict : forall verbose fields,
    to_file_data self verbose = FileDict fields ->
    describe_yaml_schema path_exists (FileDict fields) =
    path_exists (FStr (str (file_path self)))
    && bool_decide (map_Forall (fun _ x => annotation_value_ok x = true)
                      (annotations self))
    && negb (bool_decide (targets self ≠ ∅) || verbose)).
  { clear verbose. intros verbose fields Hdata.
    apply to_file_data_written in Hdata
      as (Hp & Hex & Hname & Hann & Htargets & Hkeys).
    unfold describe_yaml_schema.
    rewrite Hp, Hex, Hname, Hann, Htargets.
    rewrite (bool_decide_eq_true_2 (dom fields ⊆ _)).
    2:{ intros key Hkey. apply elem_of_dom in Hkey.
        specialize (Hkeys key Hkey). set_solver. }
    destruct (path_exists _); [| reflexivity].
    destruct (negb _ || verbose); cbn [optional_entry andb];
      destruct (bool_decide (targets self ≠ ∅) || verbose);
      cbn [optional_entry andb negb]; rewrite ?andb_true_r, ?andb_false_r;
      try reflexivity;
      (destruct (bool_decide (annotations self ≠ ∅)) eqn:Hda;
       destruct verbose; cbn [orb optional_entry]; try reflexivity;
       apply bool_decide_eq_false_1 in Hda;
       assert (Hempty : annotations self = ∅)
         by (destruct (decide (annotations self = ∅)); tauto);
       rewrite Hempty; symmetry; apply bool_decide_eq_true_2,
         map_Forall_empty). }
  split; [reflexivity |]. split; [apply Hdict |].
  intros fields Hdata. rewrite (Hdict true fields Hdata).
  now rewrite orb_true_r, andb_false_r.
Qed.

End PipelineDefinitionRoundTrip.

Lemma definition_survives_write_and_read_witness :
  PipelineDefinition.from_file_data id posix_stem
    (PipelineDefinition.to_file_data id posix_stem annotated_pipeline false) ∅
  = Returns annotated_pipeline.
Proof.
  apply (definition_survives_write_and_read id id posix_stem annotated_pipeline
           false ∅ eq_refl eq_refl).
  right. right. left. apply map_non_empty_singleton.
Defined.

Lemma definition_without_path_raises_witness :
  PipelineDefinition.from_file_data id posix_stem
    (PipelineDefinition.FileDict
       {["name"%string := PipelineDefinition.FStr "people"]}) ∅
  = Raises (KeyError (VStr "path")).
Proof.
  apply definition_without_path_raises.
  apply lookup_singleton_ne. discriminate.
Defined.

Lemma definition_annotations_override_parent_witness :
  exists definition,
    PipelineDefinition.from_file_data id posix_stem
      (PipelineDefinition.FileDict
         (<["annotations"%string :=
              PipelineDefinition.FAnnotations {["team"%string := VStr "data"]}]>
            {["path"%string := PipelineDefinition.FStr "pipelines/people.yaml"]}))
      parent_annotations_example = Returns definition /\
    PipelineDefinition.annotations definition !! "team"%string
      = Some (VStr "data") /\
    PipelineDefinition.annotations definition !! "env"%string
      = Some (VStr "prod").
Proof.
  eexists. split.
  - rewrite from_file_data_of_mapping.
    rewrite lookup_insert_ne, lookup_singleton_eq by discriminate.
    rewrite lookup_insert_eq, !lookup_insert_ne by discriminate.
    rewrite !lookup_singleton_ne by discriminate. reflexivity.
  - match goal with
    | |- PipelineDefinition.annotations ?d !! _ = _ /\ _ =>
        assert (Hread : PipelineDefinition.from_file_data id posix_stem
          (PipelineDefinition.FileDict
             (<["annotations"%string :=
                  PipelineDefinition.FAnnotations
                    {["team"%string := VStr "data"]}]>
                {["path"%string :=
                    PipelineDefinition.FStr "pipelines/people.yaml"]}))
          parent_annotations_example = Returns d)
    end.
    { rewrite from_file_data_of_mapping.
      rewrite lookup_insert_ne, lookup_singleton_eq by discriminate.
      rewrite lookup_insert_eq, !lookup_insert_ne by discriminate.
      rewrite !lookup_singleton_ne by discriminate. reflexivity. }
    pose proof (definition_annotations_override_parent id posix_stem _ _ _ Hread)
      as Hown.
    cbv zeta in Hown. split.
    + rewrite (Hown "team"%string), lookup_insert_eq.
      now rewrite lookup_singleton_eq.
    + rewrite (Hown "env"%string), lookup_insert_eq.
      rewrite lookup_singleton_ne by discriminate.
      unfold parent_annotations_example.
      now rewrite lookup_insert_ne, lookup_singleton_eq by discriminate.
Defined.

Lemma written_file_data_against_schema_witness :
  exists fields,
    PipelineDefinition.to_file_data id posix_stem people_pipeline true
      = PipelineDefinition.FileDict fields /\
    PipelineDefinition.describe_yaml_schema (fun _ => true)
      (PipelineDefinition.FileDict fields) = false.
Proof.
  eexists. split.
  - unfold PipelineDefinition.to_file_data. rewrite andb_false_r. reflexivity.
  - apply (proj2 (proj2 (written_file_data_against_schema id posix_stem
                           (fun _ => true) people_pipeline true))).
    unfold PipelineDefinition.to_file_data. rewrite andb_false_r. reflexivity.
Defined.
